(** * AI-Data-Analyst: the chat page's stream aggregation and the model selector

    A shallow embedding of the client code that folds streamed stage
    events into one answer record ([src/pages/chat.tsx]), builds the
    request sent to the streaming endpoint, keeps the conversation
    message list, and of the two model selectors
    ([src/components/ModelSelector.tsx], [src/components/SelectDataset.tsx])
    with their catalog load and default-model effect.
    Further parts model what the page shows of a message (the reply
    card, the option groups of the selectors, the file-upload notice)
    and the highlighted step text
    ([src/components/steps/HighlightText.tsx]).

    The code is TypeScript over untyped JSON payloads ([message:any],
    [requestBody:any]), so values are modelled as JavaScript values and
    property reads keep JavaScript's behaviour: reading a property of
    [null] or [undefined] raises a TypeError, reading a missing property
    gives [undefined], and [if (x)] tests truthiness. *)

From stdpp Require Import gmap strings list fin_maps pretty.
From Stdlib Require Import ZArith.

Set Warnings "-register-all,-clear-no-such-hyp".
Set Default Proof Using "Type".
Open Scope Z_scope.

(** ** JavaScript values and completions *)

Module Js.

(** A JavaScript value as it comes out of [JSON.parse], plus
    [undefined] and [NaN].  Numbers are only ever compared with integer
    literals and tested for truthiness by the code modelled here, so a
    number is an integer or [NaN].  Objects are finite maps from
    property names to values. *)
Inductive JsValue : Type :=
  | JUndefined
  | JNull
  | JBool (b : bool)
  | JNum (n : Z)
  | JNaN
  | JStr (s : string)
  | JArr (xs : list JsValue)
  | JObj (props : gmap string JsValue).

Inductive JsError : Type :=
  | TypeError
  | SyntaxError
  | NetworkError.

(** The outcome of running a statement: a value, or a thrown error. *)
Inductive Completion (A : Type) : Type :=
  | Normal (a : A)
  | Throw (e : JsError).
Global Arguments Normal {A} a.
Global Arguments Throw {A} e.

Definition bind {A B} (c : Completion A) (k : A → Completion B) : Completion B :=
  match c with
  | Normal a => k a
  | Throw e => Throw e
  end.

(** [if (v)], [!v], [v || w]: ToBoolean. *)
Definition truthy (v : JsValue) : bool :=
  match v with
  | JUndefined | JNull | JNaN => false
  | JBool b => b
  | JNum n => negb (n =? 0)
  | JStr s => negb (String.eqb s "")
  | JArr _ | JObj _ => true
  end.

(** [v !== undefined] *)
Definition notUndefined (v : JsValue) : bool :=
  match v with
  | JUndefined => false
  | _ => true
  end.

(** [v === 'lit'] and [v === n] against a string or a number literal. *)
Definition strictEqStr (v : JsValue) (lit : string) : bool :=
  match v with
  | JStr s => String.eqb s lit
  | _ => false
  end.

Definition strictEqNum (v : JsValue) (lit : Z) : bool :=
  match v with
  | JNum n => n =? lit
  | _ => false
  end.

(** [v === w] where [w] is a primitive ([Number(..)] here): objects and
    arrays are never identical to a primitive, [NaN] is not identical
    to itself. *)
Definition strictEqPrim (v w : JsValue) : bool :=
  match v, w with
  | JUndefined, JUndefined | JNull, JNull => true
  | JBool a, JBool b => bool_decide (a = b)
  | JNum a, JNum b => a =? b
  | JStr a, JStr b => String.eqb a b
  | _, _ => false
  end.

(** [v || w] *)
Definition jsOr (v w : JsValue) : JsValue :=
  if truthy v then v else w.

(** [v.k] for a data property name [k] (none of the names read by the
    code below is a built-in property of strings, numbers, booleans or
    arrays, so those read as [undefined]). *)
Definition getProp (v : JsValue) (k : string) : Completion JsValue :=
  match v with
  | JUndefined | JNull => Throw TypeError
  | JObj props => Normal (default JUndefined (props !! k))
  | _ => Normal JUndefined
  end.

(** [v?.k] *)
Definition getPropOpt (v : JsValue) (k : string) : Completion JsValue :=
  match v with
  | JUndefined | JNull => Normal JUndefined
  | _ => getProp v k
  end.

(** [data.forEach(f)] over an array, threading the state [f] mutates;
    a throw inside [f] ends the loop. *)
Fixpoint forEach {S : Type} (f : S → JsValue → Completion S)
    (data : list JsValue) (s : S) : Completion S :=
  match data with
  | [] => Normal s
  | message :: rest => bind (f s message) (forEach f rest)
  end.

(** [xs.find(p)] *)
Fixpoint arrayFind (p : JsValue → Completion bool) (xs : list JsValue)
    : Completion JsValue :=
  match xs with
  | [] => Normal JUndefined
  | x :: rest => bind (p x) (λ b, if b then Normal x else arrayFind p rest)
  end.

(** [xs.filter(p)] *)
Fixpoint arrayFilter (p : JsValue → Completion bool) (xs : list JsValue)
    : Completion (list JsValue) :=
  match xs with
  | [] => Normal []
  | x :: rest =>
      bind (p x) (λ b,
      bind (arrayFilter p rest) (λ ys,
      Normal (if b then x :: ys else ys)))
  end.

End Js.

Import Js.

(** Completions sequence like statements: [x ← c; k] runs [c] and, unless
    it threw, continues with [k]. *)
#[global] Instance Completion_ret : MRet Completion := @Normal.
#[global] Instance Completion_bind : MBind Completion := λ A B k c, bind c k.

(** ** The chat page, [src/pages/chat.tsx] *)

Module Chat.

(** The six payload fields the fold reads, in the order it reads them. *)
Definition answerFields : list string :=
  [ "answer"; "formatted_data_for_visualization"; "recommended_visualization";
    "sql_query"; "sql_valid"; "parsed_question" ].

(** [if (message.k) ai_answer[k] = message.k] when [test] is [truthy],
    [if (message.k !== undefined) ...] when it is [notUndefined]. *)
Definition copyIf (test : JsValue → bool) (k : string) (message : JsValue)
    (ai_answer : gmap string JsValue) : Completion (gmap string JsValue) :=
  v ← getProp message k;
  Normal (if test v then <[k := v]> ai_answer else ai_answer).

(** The body of [data.forEach((message:any) => {...})] in [onSuccess]. *)
Definition onMessage (ai_answer : gmap string JsValue) (message : JsValue)
    : Completion (gmap string JsValue) :=
  a ← copyIf truthy "answer" message ai_answer;
  a ← copyIf truthy "formatted_data_for_visualization" message a;
  a ← copyIf truthy "recommended_visualization" message a;
  a ← copyIf truthy "sql_query" message a;
  a ← copyIf notUndefined "sql_valid" message a;
  copyIf truthy "parsed_question" message a.

(** [const ai_answer:any = {}; data.forEach(...)]: the answer draft. *)
Definition foldAnswer (data : list JsValue) : Completion (gmap string JsValue) :=
  forEach onMessage data ∅.

(** One entry of the conversation: an object with exactly one of the
    keys [user_question], [ai_answer], [file_upload]. *)
Inductive Message : Type :=
  | user_question (question : string)
  | ai_answer (answer : gmap string JsValue)
  | file_upload (upload : gmap string JsValue).

(** What the component reads: its own [useState] cells, the three
    [dataSetStore] selectors and the two route parameters. *)
Record Page : Type := mkPage {
  question : string;
  datasetType : JsValue;
  messages : list Message;
  processingMessages : list JsValue;
  tables : JsValue;
  dataSets : JsValue;
  selectedModel : JsValue;
  data_source_id : option string;
  conversation_id : option string;
}.

Definition setQuestion (q : string) (p : Page) : Page :=
  mkPage q (datasetType p) (messages p) (processingMessages p) (tables p)
    (dataSets p) (selectedModel p) (data_source_id p) (conversation_id p).

Definition setDatasetType (t : JsValue) (p : Page) : Page :=
  mkPage (question p) t (messages p) (processingMessages p) (tables p)
    (dataSets p) (selectedModel p) (data_source_id p) (conversation_id p).

Definition setMessages (ms : list Message) (p : Page) : Page :=
  mkPage (question p) (datasetType p) ms (processingMessages p) (tables p)
    (dataSets p) (selectedModel p) (data_source_id p) (conversation_id p).

Definition setProcessingMessages (d : list JsValue) (p : Page) : Page :=
  mkPage (question p) (datasetType p) (messages p) d (tables p)
    (dataSets p) (selectedModel p) (data_source_id p) (conversation_id p).

Definition setTables (t : JsValue) (p : Page) : Page :=
  mkPage (question p) (datasetType p) (messages p) (processingMessages p) t
    (dataSets p) (selectedModel p) (data_source_id p) (conversation_id p).

Definition setDataSets (d : JsValue) (p : Page) : Page :=
  mkPage (question p) (datasetType p) (messages p) (processingMessages p)
    (tables p) d (selectedModel p) (data_source_id p) (conversation_id p).

(** [setModel] of the store, called by the selectors. *)
Definition setModel (m : JsValue) (p : Page) : Page :=
  mkPage (question p) (datasetType p) (messages p) (processingMessages p)
    (tables p) (dataSets p) m (data_source_id p) (conversation_id p).

Definition setParams (dsid cid : option string) (p : Page) : Page :=
  mkPage (question p) (datasetType p) (messages p) (processingMessages p)
    (tables p) (dataSets p) (selectedModel p) dsid cid.

(** [if (param)] on a route parameter, a string or [undefined]. *)
Definition paramValue (param : option string) : JsValue :=
  match param with
  | Some s => JStr s
  | None => JUndefined
  end.

(** [onStreamData: (data) => { setProcessingMessages(data) }] *)
Definition onStreamData (data : list JsValue) (p : Page) : Page :=
  setProcessingMessages data p.

(** [onSuccess], as the updater it hands to [setMessages]: the fold, the
    [model_used] stamp from the closure variable [selectedModel], and
    [[...prevMessages, {ai_answer}]].  A throw in the fold leaves before
    [setMessages] is reached. *)
Definition onSuccess (selectedModel : JsValue) (data : list JsValue)
    (prevMessages : list Message) : Completion (list Message) :=
  a ← foldAnswer data;
  let a := <["model_used" := selectedModel]> a in
  Normal (prevMessages ++ [ai_answer a]).

(** A call of the [onSuccess] whose closure holds [captured] for its
    [selectedModel] (a [const] bound when the component rendered): the
    updater is applied to the message list of the moment of the call,
    whichever render the closure is from. *)
Definition handleSuccessOf (captured : JsValue) (data : list JsValue) (p : Page)
    : Page :=
  match onSuccess captured data (messages p) with
  | Normal ms => setMessages ms p
  | Throw _ => p
  end.

(** Modelled from the spec: which render's [onSuccess] the hook
    [useStreamChat] of [src/hooks/useChat], not among the sources, calls
    when a stream completes.  The spec has the assembler read the
    selection at the moment of assembly, not at question-submission
    time: the closure called is the one of the render current at
    completion, whose [selectedModel] is the selection of the page
    then. *)
Definition handleSuccess (data : list JsValue) (p : Page) : Page :=
  handleSuccessOf (selectedModel p) data p.

Section WithNumber.

(** JavaScript's [Number(s)] on a string, left abstract. *)
Context (Number : string → JsValue).

Definition numberOfParam (param : option string) : JsValue :=
  match param with
  | Some s => Number s
  | None => JNaN
  end.

(** [const requestBody: any = {...}] of [askQuestion], with its two
    conditional extensions. *)
Definition requestBody (p : Page) : gmap string JsValue :=
  let body : gmap string JsValue :=
    <["llm_model" := selectedModel p]>
    (<["type" := jsOr (datasetType p) (JStr "direct_chat")]>
    (<["question" := JStr (question p)]> ∅)) in
  let body :=
    if truthy (paramValue (data_source_id p))
    then <["selected_tables" := tables p]>
         (<["dataset_id" := numberOfParam (data_source_id p)]> body)
    else body in
  if truthy (paramValue (conversation_id p))
  then <["conversaction_id" := numberOfParam (conversation_id p)]> body
  else body.

(** [askQuestion]: the page after the three state updates, and the
    body passed to [sendMessage]. *)
Definition askQuestion (p : Page) : Page * gmap string JsValue :=
  let p1 := setMessages (messages p ++ [user_question (question p)]) p in
  let p2 := setProcessingMessages [] p1 in
  let p3 := setQuestion "" p2 in
  (p3, requestBody p).

(** The object of [setMessages([{ file_upload: {...} }])]; [now] stands
    for [new Date()]. *)
Definition fileUploadOf (now dataSet : JsValue) (p : Page)
    : Completion (gmap string JsValue) :=
  name ← getProp dataSet "name";
  table_name ← getProp dataSet "table_name";
  Normal (<["tableName" := table_name]>
          (<["dataSourceId" := numberOfParam (data_source_id p)]>
          (<["timestamp" := now]>
          (<["fileSize" := JNum 0]>
          (<["fileName" := jsOr name (JStr "Unknown file")]> ∅))))).

(** The [useEffect] on [[data_source_id, dataSets]]. *)
Definition dataSourceEffect (now : JsValue) (p : Page) : Completion Page :=
  if truthy (paramValue (data_source_id p)) && truthy (dataSets p) then
    match dataSets p with
    | JArr sets =>
        filteredDataSet ← arrayFilter (λ dataSet,
          id ← getProp dataSet "id";
          Normal (strictEqPrim id (numberOfParam (data_source_id p)))) sets;
        match filteredDataSet with
        | dataSet :: _ =>
            if truthy dataSet then
              table_name ← getProp dataSet "table_name";
              type ← getProp dataSet "type";
              let p1 := setTables (JArr [jsOr table_name (JStr "")]) p in
              let p2 := setDatasetType type p1 in
              if bool_decide (length (messages p) = 0%nat)
                 && strictEqStr type "spreadsheet"
              then
                upload ← fileUploadOf now dataSet p;
                Normal (setMessages [file_upload upload] p2)
              else Normal p2
            else Normal p
        | [] => Normal p
        end
    | _ => Throw TypeError
    end
  else Normal (setDatasetType (JStr "direct_chat") p).

(** What the user, the store and the router do to the page (the last
    two are followed by the effect that depends on them). *)
Inductive UserAction : Type :=
  | Typed (q : string)
  | Asked
  | ModelChosen (m : JsValue)
  | DataSetsStored (d : JsValue) (now : JsValue)
  | Routed (dsid cid : option string) (now : JsValue).

(** The two callbacks the page gives to [useStreamChat]. *)
Inductive Callback : Type :=
  | StreamData (data : list JsValue)
  | Success (data : list JsValue).

Inductive Action : Type :=
  | ByUser (u : UserAction)
  | ByHook (c : Callback).

Definition runEffect (now : JsValue) (p : Page) : Page :=
  match dataSourceEffect now p with
  | Normal p' => p'
  | Throw _ => p
  end.

Definition act (u : UserAction) (p : Page) : Page :=
  match u with
  | Typed q => setQuestion q p
  | Asked => fst (askQuestion p)
  | ModelChosen m => setModel m p
  | DataSetsStored d now => runEffect now (setDataSets d p)
  | Routed dsid cid now => runEffect now (setParams dsid cid p)
  end.

Definition call (c : Callback) (p : Page) : Page :=
  match c with
  | StreamData data => onStreamData data p
  | Success data => handleSuccess data p
  end.

Definition perform (a : Action) (p : Page) : Page :=
  match a with
  | ByUser u => act u p
  | ByHook c => call c p
  end.

End WithNumber.

End Chat.

Import Chat.

(** ** The previous version of the chat page (an unnamed source part) *)

Module ChatLegacy.

Section WithNumber.

Context (Number : string → JsValue).

(** The object literal passed to [sendMessage]: all six keys, always. *)
Definition requestBody (p : Page) : gmap string JsValue :=
  <["llm_model" := selectedModel p]>
  (<["selected_tables" := tables p]>
  (<["dataset_id" := numberOfParam Number (data_source_id p)]>
  (<["conversaction_id" := numberOfParam Number (conversation_id p)]>
  (<["type" := jsOr (datasetType p) (JStr "url")]>
  (<["question" := JStr (question p)]> ∅))))).

End WithNumber.

End ChatLegacy.

(** ** The model selectors *)

(** [ModelSelector.tsx] and [SelectDataset.tsx] carry the same two
    effects; they differ in the fallback list. *)
Module Catalog.

Definition modelInfo (name display_name description platform capability : string)
    : JsValue :=
  JObj (<["name" := JStr name]>
       (<["display_name" := JStr display_name]>
       (<["description" := JStr description]>
       (<["platform" := JStr platform]>
       (<["capability" := JStr capability]>
       (<["best_for" := JArr []]> ∅)))))).

(** How [fetch(...)] followed by [response.json()] can end. *)
Inductive FetchOutcome : Type :=
  | FetchRejected
  | BodyNotJson
  | Body (data : JsValue).

(** The [try] block of [fetchModels]: the value [availableModels] holds
    when it is left normally. *)
Definition tryFetch (outcome : FetchOutcome) (availableModels : JsValue)
    : Completion JsValue :=
  match outcome with
  | FetchRejected => Throw NetworkError
  | BodyNotJson => Throw SyntaxError
  | Body data =>
      status_code ← getProp data "status_code";
      if strictEqNum status_code 200 then
        inner ← getProp data "data";
        models ← getPropOpt inner "models";
        if truthy models then Normal models else Normal availableModels
      else Normal availableModels
  end.

(** [fetchModels] with its [catch]: [availableModels] afterwards. *)
Definition fetchModelsWith (fallback : JsValue) (outcome : FetchOutcome)
    (availableModels : JsValue) : JsValue :=
  match tryFetch outcome availableModels with
  | Normal models => models
  | Throw _ => fallback
  end.

(** [availableModels.find(m => m.name === 'gpt-4o-mini')] *)
Definition findDefault (models : list JsValue) : Completion JsValue :=
  arrayFind (λ m, name ← getProp m "name";
                  Normal (strictEqStr name "gpt-4o-mini")) models.

(** The default-model effect: the store's [selectedModel] after it ran.
    A value of [availableModels] that is no array either fails the
    length test or has no [find]; [setModel] is reached on neither
    path, as when a list element is [null] and reading its [name]
    throws. *)
Definition defaultModelEffect (model availableModels : JsValue) : JsValue :=
  if negb (truthy model) then
    match availableModels with
    | JArr models =>
        if bool_decide (0 < length models)%nat then
          match findDefault models with
          | Normal defaultModel =>
              if truthy defaultModel then
                match getProp defaultModel "name" with
                | Normal name => name
                | Throw _ => model
                end
              else model
          | Throw _ => model
          end
        else model
    | _ => model
    end
  else model.

(** [availableModels.filter(m => m.platform === platform).length > 0],
    the test the Groq [optgroup] is rendered under. *)
Definition hasPlatform (platform : string) (availableModels : JsValue) : bool :=
  match availableModels with
  | JArr models =>
      match arrayFilter (λ m, p ← getProp m "platform";
                              Normal (strictEqStr p platform)) models with
      | Normal (_ :: _) => true
      | _ => false
      end
  | _ => false
  end.

(** One selector: the store's [selectedModel] and its own list. *)
Record Selector : Type := mkSelector {
  model : JsValue;
  availableModels : JsValue;
}.

Inductive SelectorEvent : Type :=
  | CatalogLoad (outcome : FetchOutcome)
  | UserSelect (value : string).

(** A state change followed by the effect that depends on both cells.
    [UserSelect v] is the [onChange] of the [select]:
    [setModel(e.target.value)]. *)
Definition selectorStep (fallback : JsValue) (ev : SelectorEvent)
    (st : Selector) : Selector :=
  let st' :=
    match ev with
    | CatalogLoad outcome =>
        mkSelector (model st) (fetchModelsWith fallback outcome (availableModels st))
    | UserSelect v => mkSelector (JStr v) (availableModels st)
    end in
  mkSelector (defaultModelEffect (model st') (availableModels st'))
             (availableModels st').

Definition selectorRun (fallback : JsValue) (evs : list SelectorEvent)
    (st : Selector) : Selector :=
  foldl (λ st ev, selectorStep fallback ev st) st evs.

End Catalog.

Import Catalog.

Module ModelSelector.

Definition fallbackModels : JsValue :=
  JArr [ modelInfo "gpt-4o-mini" "GPT-4o Mini" "Fast and cost-effective" "openai" "fast";
         modelInfo "gpt-4o" "GPT-4o" "Best all-around" "openai" "balanced" ].

Definition fetchModels := fetchModelsWith fallbackModels.

End ModelSelector.

Module SelectDataset.

Definition fallbackModels : JsValue :=
  JArr [ modelInfo "gpt-4o-mini" "GPT-4o Mini" "Fast and cost-effective" "openai" "fast";
         modelInfo "gemma2-9b-it" "Gemma 2 9B" "Balanced model" "groq" "balanced" ].

Definition fetchModels := fetchModelsWith fallbackModels.

End SelectDataset.

(** ** The streaming hook *)

Module UseStreamChat.

(** Modelled from the spec: the hook [useStreamChat] of [src/hooks/useChat],
    which owns the connection and calls [onStreamData] and [onSuccess],
    is not among the sources.  The spec has it track the current
    session with a monotonically increasing counter, accept events only
    from the session matching the counter, hand each accepted event's
    accumulated sequence to the progress callback, and on a success
    terminal hand the sequence to the assembler. *)
Record Hook : Type := mkHook {
  counter : nat;
  streamData : list JsValue;
}.

Inductive Signal : Type :=
  | Event (e : JsValue)
  | Succeeded
  | Failed (error : string).

Record App : Type := mkApp {
  page : Page;
  hook : Hook;
}.

Inductive Input : Type :=
  | User (u : UserAction)
  | FromSession (sid : nat) (s : Signal).

(** Modelled from the spec: [mutate] opens the next session. *)
Definition mutate (h : Hook) : Hook :=
  mkHook (S (counter h)) [].

Section WithNumber.

Context (Number : string → JsValue).

(** Modelled from the spec: a signal of session [sid] reaching the hook. *)
Definition deliver (sid : nat) (s : Signal) (app : App) : App :=
  if bool_decide (sid = counter (hook app)) then
    match s with
    | Event e =>
        let data := streamData (hook app) ++ [e] in
        mkApp (call (StreamData data) (page app))
              (mkHook (counter (hook app)) data)
    | Succeeded =>
        mkApp (call (Success (streamData (hook app))) (page app)) (hook app)
    | Failed _ => app
    end
  else app.

Definition step (i : Input) (app : App) : App :=
  match i with
  | User Asked => mkApp (act Number Asked (page app)) (mutate (hook app))
  | User u => mkApp (act Number u (page app)) (hook app)
  | FromSession sid s => deliver sid s app
  end.

Definition run (inputs : list Input) (app : App) : App :=
  foldl (λ app i, step i app) app inputs.

(** The inputs that remain when session [sid] falls silent. *)
Definition silence (sid : nat) (inputs : list Input) : list Input :=
  List.filter (λ i, match i with
                    | FromSession sid' _ => negb (Nat.eqb sid' sid)
                    | User _ => true
                    end) inputs.

End WithNumber.

End UseStreamChat.

Import UseStreamChat.

(** ** Vocabulary of the statements *)

(** [null] and [undefined], the two values a property read throws on. *)
Definition nullish (v : JsValue) : bool :=
  match v with
  | JUndefined | JNull => true
  | _ => false
  end.

(** The value [e.k] reads as when [e] is not nullish. *)
Definition readProp (e : JsValue) (k : string) : JsValue :=
  match getProp e k with
  | Normal v => v
  | Throw _ => JUndefined
  end.

(** The guard the fold puts on field [k]: [!== undefined] on [sql_valid],
    truthiness on the other five. *)
Definition accepts (k : string) (v : JsValue) : bool :=
  if String.eqb k "sql_valid" then notUndefined v else truthy v.

(** A field is present in an event when reading it gives anything but
    [undefined]. *)
Definition present (k : string) (v : JsValue) : bool :=
  notUndefined v.

(** The last value of field [k] in [data] that passes [test]. *)
Definition lastWhere (test : string → JsValue → bool) (k : string)
    (data : list JsValue) : option JsValue :=
  last (List.filter (test k) (map (λ e, readProp e k) data)).

(** The answer fields an event carries with a value passing [test]. *)
Definition carried (test : string → JsValue → bool) (e : JsValue)
    : gmap string JsValue :=
  match e with
  | JObj props => filter (λ kv, kv.1 ∈ answerFields ∧ test kv.1 kv.2) props
  | _ => ∅
  end.

(** Two events carry a common field. *)
Definition sharesField (test : string → JsValue → bool) (e1 e2 : JsValue) : bool :=
  existsb (λ k, test k (readProp e1 k) && test k (readProp e2 k)) answerFields.

(** No field is carried by two events of the sequence. *)
Fixpoint disjointFields (test : string → JsValue → bool) (data : list JsValue) : bool :=
  match data with
  | [] => true
  | e :: rest => forallb (λ e', negb (sharesField test e e')) rest
                 && disjointFields test rest
  end.

(** The union of the fields of all events. *)
Definition unionFields (test : string → JsValue → bool) (data : list JsValue)
    : gmap string JsValue :=
  ⋃ (carried test <$> data).

(** What one guarded assignment leaves in the draft when the read of
    [e.k] does not throw. *)
Definition written (test : JsValue → bool) (k : string) (e : JsValue)
    (a : gmap string JsValue) : gmap string JsValue :=
  if test (readProp e k) then <[k := readProp e k]> a else a.

(** The draft after one event that is not nullish: the six guarded
    assignments of [onMessage] in their order. *)
Definition absorbed (a : gmap string JsValue) (e : JsValue) : gmap string JsValue :=
  written truthy "parsed_question" e
  (written notUndefined "sql_valid" e
  (written truthy "sql_query" e
  (written truthy "recommended_visualization" e
  (written truthy "formatted_data_for_visualization" e
  (written truthy "answer" e a))))).

(** [e] shares no accepted field with any event of [rest]. *)
Definition apart (e : JsValue) (rest : list JsValue) : Prop :=
  ∀ e', e' ∈ rest → sharesField accepts e e' = false.

(** The accumulated run of a list of page actions. *)
Definition performAll (Number : string → JsValue) (actions : list Action)
    (p : Page) : Page :=
  foldl (λ p a, perform Number a p) p actions.

(** The selection after a list of page actions that began under [m0]:
    the last model the user chose among them, [m0] when there is none. *)
Definition lastChosen (m0 : JsValue) (actions : list Action) : JsValue :=
  foldl (λ m a, match a with ByUser (ModelChosen m') => m' | _ => m end)
        m0 actions.

(** [m.name === 'gpt-4o-mini'] on a list element that is not nullish. *)
Definition isDefaultModel (m : JsValue) : bool :=
  strictEqStr (readProp m "name") "gpt-4o-mini".

Definition isCatalogLoad (ev : SelectorEvent) : Prop :=
  match ev with
  | CatalogLoad _ => True
  | UserSelect _ => False
  end.

(** Sample inputs: a page on the route of conversation 7 with no data
    source, a stand-in for [Number] on that route, two response bodies of
    a failing catalog service, and an application about to ask. *)
Definition samplePage : Page :=
  mkPage "Provide summary of test case" JUndefined [] [] JUndefined JUndefined
         (JStr "gpt-4o-mini") None (Some "7").

Definition sampleNumber (s : string) : JsValue :=
  if String.eqb s "7" then JNum 7 else JNaN.

Definition errorBody : JsValue := JObj {[ "status_code" := JNum 500 ]}.

Definition notFoundBody : JsValue := JObj {[ "detail" := JStr "Not Found" ]}.

Definition sampleApp : App := mkApp samplePage (mkHook 0 []).

(** The event [{k: v}]. *)
Definition ev (k : string) (v : JsValue) : JsValue := JObj {[ k := v ]}.

(** Membership in the list of answer fields, for a literal field name. *)
Ltac field_in :=
  unfold answerFields;
  repeat first [apply list_elem_of_here | apply list_elem_of_further].

(** ** Further vocabulary *)

(** The body of a successful catalog response holding [models]. *)
Definition okBody (models : JsValue) : JsValue :=
  JObj (<["status_code" := JNum 200]> {[ "data" := JObj {[ "models" := models ]} ]}).

Definition isUpload (m : Message) : bool :=
  match m with
  | file_upload _ => true
  | _ => false
  end.

(** No file-upload notice after the first message. *)
Definition noLaterUpload (ms : list Message) : Prop :=
  Forall (λ m, isUpload m = false) (tail ms).

(** The values [UserSelect] events put in the store. *)
Definition userChoices (evs : list SelectorEvent) : list JsValue :=
  omap (λ ev, match ev with
              | UserSelect v => Some (JStr v)
              | CatalogLoad _ => None
              end) evs.

(** Two events read the same on every answer field. *)
Definition sameFields (e e' : JsValue) : Prop :=
  ∀ k, k ∈ answerFields → readProp e k = readProp e' k.

(** A stand-in for [join(', ')] on the sample inputs. *)
Definition sampleJoin (names : list JsValue) : Completion JsValue :=
  Normal (default (JStr "") (head names)).

(** ** What the chat page shows of a message, [src/pages/chat.tsx] *)

Module AnswerCard.

(** The child [{cond && <el/>}]: the element when [cond] is truthy, the
    falsy value of [cond] itself otherwise. *)
Inductive Child (A : Type) : Type :=
  | Element (a : A)
  | Value (v : JsValue).
Global Arguments Element {A} a.
Global Arguments Value {A} v.

Definition jsxAnd {A : Type} (cond : JsValue) (el : A) : Child A :=
  if truthy cond then Element el else Value cond.

(** A falsy child that React still prints: the numbers [0] and [NaN]. *)
Definition leaks {A : Type} (c : Child A) : bool :=
  match c with
  | Value (JNum _) | Value JNaN => true
  | _ => false
  end.

(** [xs.map(f)] *)
Fixpoint arrayMap (f : JsValue → Completion JsValue) (xs : list JsValue)
    : Completion (list JsValue) :=
  match xs with
  | [] => Normal []
  | x :: rest => y ← f x; ys ← arrayMap f rest; Normal (y :: ys)
  end.

(** [ai_answer.k] on the answer object. *)
Definition field (ai_answer : gmap string JsValue) (k : string) : JsValue :=
  default JUndefined (ai_answer !! k).

(** The collapsible technical details. *)
Record Details : Type := mkDetails {
  sqlQuery : JsValue;
  validation : Child bool;
  tablesUsed : Child JsValue;
  modelUsed : Child JsValue;
}.

(** The reply card: the text handed to the markdown renderer, the chart
    with its type and data, and the details. *)
Record Card : Type := mkCard {
  summary : JsValue;
  chart : Child (JsValue * JsValue);
  details : Child Details;
}.

Section WithJoin.

(** [names.join(', ')], left abstract. *)
Context (join : list JsValue → Completion JsValue).

(** [relevant_tables.map((t: any) => t.table_name).join(', ')] *)
Definition tableNames (relevant_tables : JsValue) : Completion JsValue :=
  match relevant_tables with
  | JArr ts => names ← arrayMap (λ t, getProp t "table_name") ts; join names
  | _ => Throw TypeError
  end.

(** The [details] element, evaluated only under a truthy [sql_query]. *)
Definition detailsOf (ai_answer : gmap string JsValue) : Completion Details :=
  let sql_valid := field ai_answer "sql_valid" in
  let validation :=
    if notUndefined sql_valid then Element (truthy sql_valid)
    else Value (JBool false) in
  relevant_tables ← getPropOpt (field ai_answer "parsed_question") "relevant_tables";
  tables ← (if truthy relevant_tables
            then names ← tableNames relevant_tables; Normal (Element names)
            else Normal (Value relevant_tables));
  Normal (mkDetails (field ai_answer "sql_query") validation tables
            (jsxAnd (field ai_answer "model_used") (field ai_answer "model_used"))).

(** The JSX under [message.ai_answer && (...)]. *)
Definition card (ai_answer : gmap string JsValue) : Completion Card :=
  let data := field ai_answer "formatted_data_for_visualization" in
  let sql_query := field ai_answer "sql_query" in
  shown ← (if truthy sql_query
           then d ← detailsOf ai_answer; Normal (Element d)
           else Normal (Value sql_query));
  Normal (mkCard (jsOr (field ai_answer "answer") (JStr ""))
            (jsxAnd data (jsOr (field ai_answer "recommended_visualization") (JStr ""), data))
            shown).

End WithJoin.

(** The question bubble, [{message?.user_question && (...)}]. *)
Definition questionBubble (m : Message) : Child string :=
  match m with
  | user_question q => jsxAnd (JStr q) q
  | _ => Value JUndefined
  end.

End AnswerCard.

(** ** The option groups of the two selectors *)

Module Options.

(** [availableModels.filter(m => m.platform === platform)] *)
Definition platformOptions (platform : string) (models : list JsValue)
    : Completion (list JsValue) :=
  arrayFilter (λ m, p ← getProp m "platform"; Normal (strictEqStr p platform)) models.

(** The OpenAI [optgroup], always there, and the Groq one when rendered. *)
Record Groups : Type := mkGroups {
  openaiGroup : list JsValue;
  groqGroup : option (list JsValue);
}.

(** [ModelSelector.tsx]: the Groq group only when it has an option. *)
Definition modelSelectorGroups (availableModels : JsValue) : Completion Groups :=
  match availableModels with
  | JArr models =>
      openai ← platformOptions "openai" models;
      groq ← platformOptions "groq" models;
      Normal (mkGroups openai (if bool_decide (0 < length groq)%nat then Some groq else None))
  | _ => Throw TypeError
  end.

(** [SelectDataset.tsx]: both groups, always. *)
Definition selectDatasetGroups (availableModels : JsValue) : Completion Groups :=
  match availableModels with
  | JArr models =>
      openai ← platformOptions "openai" models;
      groq ← platformOptions "groq" models;
      Normal (mkGroups openai (Some groq))
  | _ => Throw TypeError
  end.

(** Every option of the groups, top to bottom. *)
Definition offered (g : Groups) : list JsValue :=
  openaiGroup g ++ default [] (groqGroup g).

Definition platformIs (platform : string) (m : JsValue) : bool :=
  strictEqStr (readProp m "platform") platform.

End Options.

(** ** The file-upload notice (unnamed source parts) *)

Module FileMessage.

Section WithNumberToString.

(** JavaScript's [String(x)] of the number [num / den], left abstract.
    It is read only where the number is not printed as the plain digits
    of an integer: from 2^53 in magnitude, where the shortest digits
    that read back are printed, and from 1e21, where the exponent form
    is. *)
Context (numberToString : Z → Z → string).

(** The template [`${n}`] on an integer. *)
Definition template (n : Z) : string :=
  if Z.abs n <? 2 ^ 53 then pretty n else numberToString n 1.

(** The number of tenths [toFixed(1)] picks for a ratio [num / den] that
    is not negative and that a double holds exactly (an integer over a
    power of two): the nearest one, the larger on a tie. *)
Definition tenths (num den : Z) : Z :=
  (20 * num + den) / (2 * den).

(** The digits [toFixed(1)] prints for a number of tenths. *)
Definition fixed1 (t : Z) : string :=
  pretty (t / 10) +:+ "." +:+ pretty (t mod 10).

(** [(num / den).toFixed(1)] for such a ratio: one decimal below 1e21,
    [String(x)] from there on. *)
Definition toFixed1 (num den : Z) : string :=
  if num <? 10 ^ 21 * den then fixed1 (tenths num den)
  else numberToString num den.

(** [formatFileSize] of the notice the chat page renders, on an integer
    byte count. *)
Definition formatFileSize (bytes : Z) : string :=
  if bytes <? 1024 then template bytes +:+ " B"
  else if bytes <? 1024 * 1024 then toFixed1 bytes 1024 +:+ " KB"
  else toFixed1 bytes (1024 * 1024) +:+ " MB".

(** The size the notice of an upload object shows. *)
Definition shownSize (upload : gmap string JsValue) : option string :=
  match upload !! "fileSize" with
  | Some (JNum bytes) => Some (formatFileSize bytes)
  | _ => None
  end.

End WithNumberToString.

End FileMessage.

(** The other version of the notice: an optional size and relative
    times. *)
Module FileMessageRelative.

Section WithNumberToString.

Context (numberToString : Z → Z → string).

(** [formatFileSize(bytes?: number)]; [None] is [undefined]. *)
Definition formatFileSize (bytes : option Z) : string :=
  match bytes with
  | None | Some 0 => "Unknown size"
  | Some b =>
      if b <? 1024 then FileMessage.template numberToString b +:+ " B"
      else if b <? 1024 * 1024
           then FileMessage.toFixed1 numberToString b 1024 +:+ " KB"
           else FileMessage.toFixed1 numberToString b (1024 * 1024) +:+ " MB"
  end.

End WithNumberToString.

Section WithLocale.

(** [new Date(date).toLocaleDateString()], left abstract. *)
Context (toLocaleDateString : Z → string).

(** [formatTime], on the two instants in milliseconds. *)
Definition formatTime (now date : Z) : string :=
  let diff := now - date in
  let seconds := diff / 1000 in
  if seconds <? 60 then "Just now"
  else if seconds <? 3600 then pretty (seconds / 60) +:+ " min ago"
  else if seconds <? 86400 then pretty (seconds / 3600) +:+ " hours ago"
  else toLocaleDateString date.

End WithLocale.

End FileMessageRelative.

(** A notice whose size reads [0 B] and that has no row count. *)
Definition plainNotice (numberToString : Z → Z → string) (m : Message) : Prop :=
  ∀ upload, m = file_upload upload →
    FileMessage.shownSize numberToString upload = Some "0 B"
    ∧ upload !! "rowsProcessed" = None.

(** A stand-in for [String(x)] beyond the safe integers. *)
Definition sampleNumberToString (num den : Z) : string := "1e+21".

(** ** Highlighted step text, [src/components/steps/HighlightText.tsx] *)

Module HighlightText.

(** A string is its sequence of UTF-16 code units. *)
Definition LF : N := 10.
Definition CR : N := 13.
Definition STAR : N := 42.
Definition HYPHEN : N := 45.
Definition BULLET : N := 8226.
Definition LS : N := 8232.
Definition PS : N := 8233.

Definition isLineTerminator (c : N) : bool :=
  (c =? LF)%N || (c =? CR)%N || (c =? LS)%N || (c =? PS)%N.

(** White space and line terminators: what [trim] removes and [\s]
    matches. *)
Definition isSpace (c : N) : bool :=
  isLineTerminator c
  || (c =? 9)%N || (c =? 11)%N || (c =? 12)%N || (c =? 32)%N || (c =? 160)%N
  || (c =? 5760)%N || ((8192 <=? c)%N && (c <=? 8202)%N)
  || (c =? 8239)%N || (c =? 8287)%N || (c =? 12288)%N || (c =? 65279)%N.

Fixpoint dropWhile (p : N → bool) (s : list N) : list N :=
  match s with
  | c :: rest => if p c then dropWhile p rest else s
  | [] => []
  end.

Fixpoint runLength (p : N → bool) (s : list N) : nat :=
  match s with
  | c :: rest => if p c then S (runLength p rest) else O
  | [] => O
  end.

(** [s.split(R)] for a pattern that matches no empty string: [matchAt]
    gives the length of the match starting at the head of what is left;
    with [capture] the matched text is spliced into the result, as for a
    pattern that is one capture group.  [skip] counts the code units of
    the current match still to pass, [cur] is the piece being built. *)
Fixpoint splitGo (matchAt : list N → option nat) (capture : bool)
    (skip : nat) (cur : list N) (s : list N) : list (list N) :=
  match s with
  | [] => [cur]
  | c :: rest =>
      match skip with
      | S k => splitGo matchAt capture k cur rest
      | O =>
          match matchAt s with
          | Some (S len) =>
              cur :: (if capture then [take (S len) s] else [])
                  ++ splitGo matchAt capture len [] rest
          | _ => splitGo matchAt capture O (cur ++ [c]) rest
          end
      end
  end.

Definition split (matchAt : list N → option nat) (capture : bool) (s : list N)
    : list (list N) :=
  splitGo matchAt capture O [] s.

(** The paragraph break: two or more line feeds. *)
Definition matchBreak (s : list N) : option nat :=
  match s with
  | a :: b :: rest =>
      if (a =? LF)%N && (b =? LF)%N
      then Some (2 + runLength (N.eqb LF) rest)%nat
      else None
  | _ => None
  end.

(** The separator ['\n']. *)
Definition matchNewline (s : list N) : option nat :=
  match s with
  | c :: _ => if (c =? LF)%N then Some 1%nat else None
  | [] => None
  end.

(** The tail of the bold pattern after its opening pair: how many code
    units the lazy run of [.] takes before the closing pair of stars. *)
Fixpoint lazyClose (s : list N) : option nat :=
  match s with
  | c :: rest =>
      match rest with
      | d :: _ =>
          if (c =? STAR)%N && (d =? STAR)%N then Some O
          else if isLineTerminator c then None
          else S <$> lazyClose rest
      | [] => None
      end
  | [] => None
  end.

(** The bold pattern: two stars, a lazy run of [.], two stars, the whole
    of it one capture group. *)
Definition matchBold (s : list N) : option nat :=
  match s with
  | a :: b :: rest =>
      if (a =? STAR)%N && (b =? STAR)%N
      then (λ n, 4 + n)%nat <$> lazyClose rest
      else None
  | _ => None
  end.

Definition splitParagraphs : list N → list (list N) := split matchBreak false.
Definition splitLines : list N → list (list N) := split matchNewline false.
Definition splitBold : list N → list (list N) := split matchBold true.

(** [s.trim()] *)
Definition trim (s : list N) : list N :=
  reverse (dropWhile isSpace (reverse (dropWhile isSpace s))).

Definition isBulletChar (c : N) : bool :=
  (c =? HYPHEN)%N || (c =? BULLET)%N || (c =? STAR)%N.

(** The bullet pattern at the start of [s]: a hyphen, a bullet or a
    star, then one or more [\s]. *)
Definition matchBullet (s : list N) : option nat :=
  match s with
  | c :: w :: rest =>
      if isBulletChar c && isSpace w
      then Some (2 + runLength isSpace rest)%nat
      else None
  | _ => None
  end.

(** [line.trim().match(...)] with the bullet pattern. *)
Definition isBullet (line : list N) : bool :=
  bool_decide (is_Some (matchBullet (trim line))).

(** [line.replace(..., '')] with the bullet pattern. *)
Definition stripBullet (line : list N) : list N :=
  match matchBullet line with
  | Some n => drop n line
  | None => line
  end.

(** [part.startsWith(..)] for the pair of stars, and the test of
    [renderPart]: it starts and ends with the pair. *)
Definition startsWithStars (part : list N) : bool :=
  match part with
  | a :: b :: _ => (a =? STAR)%N && (b =? STAR)%N
  | _ => false
  end.

Definition isMarked (part : list N) : bool :=
  startsWithStars part && startsWithStars (reverse part).

(** [part.slice(2, -2)] *)
Definition slice2 (part : list N) : list N :=
  take (length part - 4) (drop 2 part).

Inductive Span : Type :=
  | Bold (text : list N)
  | Plain (text : list N).

Definition renderPart (part : list N) : Span :=
  if isMarked part then Bold (slice2 part) else Plain part.

Definition spans (s : list N) : list Span :=
  renderPart <$> splitBold s.

Inductive Line : Type :=
  | Li (content : list Span)
  | Block (content : list Span).

(** [processLine] *)
Definition processLine (line : list N) : Line :=
  if isBullet line then Li (spans (stripBullet line)) else Block (spans line).

Inductive Paragraph : Type :=
  | Ul (lines : list Line)
  | Div (lines : list Line).

(** The component: one [ul] or [div] per paragraph. *)
Definition render (text : list N) : list Paragraph :=
  (λ paragraph,
     let lines := splitLines paragraph in
     if existsb isBullet lines
     then Ul (processLine <$> lines)
     else Div (processLine <$> lines)) <$> splitParagraphs text.

(** The characters a span, a line, puts on screen. *)
Definition spanText (sp : Span) : list N :=
  match sp with
  | Bold t | Plain t => t
  end.

Definition lineText (l : Line) : list N :=
  match l with
  | Li content | Block content => concat (spanText <$> content)
  end.

(** [parts.join(sep)] *)
Fixpoint joinWith (sep : list N) (parts : list (list N)) : list N :=
  match parts with
  | [] => []
  | [part] => part
  | part :: rest => part ++ sep ++ joinWith sep rest
  end.

(** Two line feeds in a row somewhere in [s]. *)
Fixpoint hasBreak (s : list N) : bool :=
  match s with
  | a :: rest =>
      match rest with
      | b :: _ => ((a =? LF)%N && (b =? LF)%N) || hasBreak rest
      | [] => false
      end
  | [] => false
  end.

Definition notStar (c : N) : bool := negb (c =? STAR)%N.

(** The text with its stars taken out. *)
Definition unstarred (s : list N) : list N := List.filter notStar s.

End HighlightText.

(** ** The earlier data-source effect (unnamed source part) *)

Module ChatLegacyEffect.

Section WithNumber.

Context (Number : string → JsValue).

(** [dataSets?.filter((dataSet) => dataSet.id === Number(data_source_id))];
    [None] is the [undefined] of the optional call. *)
Definition filteredDataSet (p : Page) : Completion (option (list JsValue)) :=
  match dataSets p with
  | JUndefined | JNull => Normal None
  | JArr sets =>
      found ← arrayFilter (λ dataSet,
        id ← getProp dataSet "id";
        Normal (strictEqPrim id (numberOfParam Number (data_source_id p)))) sets;
      Normal (Some found)
  | _ => Throw TypeError
  end.

(** The [useEffect] on [[data_source_id]]. *)
Definition dataSourceEffect (p : Page) : Completion Page :=
  filtered ← filteredDataSet p;
  match filtered with
  | Some (dataSet :: _) =>
      table_name ← getPropOpt dataSet "table_name";
      type ← getPropOpt dataSet "type";
      Normal (setDatasetType type (setTables (JArr [jsOr table_name (JStr "")]) p))
  | _ => Normal p
  end.

End WithNumber.

End ChatLegacyEffect.

(** ** The fold, one event at a time *)

Section FoldStep.

Implicit Types (a : gmap string JsValue) (e v : JsValue) (k : string).

Lemma getProp_readProp e k : nullish e = false → getProp e k = Normal (readProp e k).
Proof. destruct e; simpl; intros; try done. Qed.

Lemma copyIf_written test k e a :
  nullish e = false → copyIf test k e a = Normal (written test k e a).
Proof. intros He. unfold copyIf, written. by rewrite getProp_readProp. Qed.

Lemma written_lookup test k e a k' :
  written test k e a !! k'
  = if bool_decide (k' = k) && test (readProp e k) then Some (readProp e k) else a !! k'.
Proof.
  unfold written. case_bool_decide as Hk; simpl.
  - subst k'. destruct (test _); [by rewrite lookup_insert_eq | done].
  - destruct (test _); [by rewrite lookup_insert_ne | done].
Qed.

Lemma onMessage_absorbed a e :
  nullish e = false → onMessage a e = Normal (absorbed a e).
Proof.
  intros He. unfold onMessage, absorbed.
  do 5 (rewrite copyIf_written by done; cbn [mbind Completion_bind bind]).
  by rewrite copyIf_written.
Qed.

Lemma onMessage_nullish a e : nullish e = true → onMessage a e = Throw TypeError.
Proof. by destruct e. Qed.

(** Field by field: an accepted value is written, anything else leaves
    the draft as it was. *)
Lemma absorbed_lookup a e k :
  absorbed a e !! k
  = if bool_decide (k ∈ answerFields) && accepts k (readProp e k)
    then Some (readProp e k) else a !! k.
Proof.
  unfold absorbed. rewrite !written_lookup. unfold accepts, answerFields.
  repeat (case_bool_decide; [subst k; simpl; try done|]); simpl.
  all: try (destruct (truthy _); done).
  all: try (destruct (notUndefined _); done).
  rewrite bool_decide_eq_false_2; [done|].
  intros Hin. repeat (apply elem_of_cons in Hin as [?|Hin]; [done|]).
  by apply elem_of_nil in Hin.
Qed.

Lemma accepts_undefined k : accepts k JUndefined = false.
Proof. unfold accepts. by destruct (String.eqb k "sql_valid"). Qed.

Lemma carried_lookup e k :
  carried accepts e !! k
  = if bool_decide (k ∈ answerFields) && accepts k (readProp e k)
    then Some (readProp e k) else None.
Proof.
  destruct e; simpl; rewrite ?lookup_empty, ?accepts_undefined, ?andb_false_r; try done.
  unfold readProp. simpl.
  destruct (props !! k) as [v|] eqn:Hk; simpl.
  - case_bool_decide as Hin; simpl.
    + destruct (accepts k v) eqn:Hv.
      * apply map_lookup_filter_Some. simpl. rewrite Hv. done.
      * apply map_lookup_filter_None. right. intros v' Hv' [_ Hacc]. simpl in Hacc.
        rewrite Hk in Hv'. injection Hv' as <-. by rewrite Hv in Hacc.
    + apply map_lookup_filter_None. right. intros v' _ [Hin' _]. done.
  - rewrite accepts_undefined, andb_false_r.
    apply map_lookup_filter_None. by left.
Qed.

(** One event is one left-biased union with the fields it carries. *)
Lemma absorbed_union a e : absorbed a e = carried accepts e ∪ a.
Proof.
  apply map_eq. intros k. rewrite absorbed_lookup, lookup_union, carried_lookup.
  destruct (_ && _); simpl.
  - by destruct (a !! k).
  - by rewrite (left_id None _).
Qed.

Lemma forEach_absorbed data a :
  Forall (λ e, nullish e = false) data →
  forEach onMessage data a = Normal (foldl absorbed a data).
Proof.
  intros Hdata. revert a. induction Hdata as [|e rest He _ IH]; intros a; simpl.
  - done.
  - rewrite onMessage_absorbed by done. simpl. apply IH.
Qed.

Lemma lastWhere_cons test k e rest :
  lastWhere test k (e :: rest)
  = match lastWhere test k rest with
    | Some v => Some v
    | None => if test k (readProp e k) then Some (readProp e k) else None
    end.
Proof.
  unfold lastWhere. cbn -[last].
  destruct (test k (readProp e k)); [by rewrite last_cons | by destruct (last _)].
Qed.

Lemma foldl_absorbed_lookup data a k :
  foldl absorbed a data !! k
  = if bool_decide (k ∈ answerFields)
    then from_option Some (a !! k) (lastWhere accepts k data)
    else a !! k.
Proof.
  revert a. induction data as [|e rest IH]; intros a; simpl.
  - by case_bool_decide.
  - rewrite IH, lastWhere_cons, absorbed_lookup.
    case_bool_decide; simpl; [|done].
    destruct (lastWhere accepts k rest); simpl; [done|].
    by destruct (accepts k (readProp e k)).
Qed.

End FoldStep.

(** ** The answer draft, field by field *)

Section FoldClaims.

Implicit Types (a : gmap string JsValue) (e v : JsValue) (k : string).
Implicit Types (data more : list JsValue).

Lemma lastWhere_app test k data more :
  lastWhere test k (data ++ more)
  = match lastWhere test k more with
    | Some v => Some v
    | None => lastWhere test k data
    end.
Proof. unfold lastWhere. by rewrite map_app, List.filter_app, last_app. Qed.

Lemma lastWhere_passes test k data v :
  lastWhere test k data = Some v → test k v = true.
Proof.
  unfold lastWhere. intros Hlast.
  apply last_Some_elem_of, list_elem_of_In, List.filter_In in Hlast. tauto.
Qed.

Lemma foldAnswer_lookup data k :
  Forall (λ e, nullish e = false) data →
  ∃ a, foldAnswer data = Normal a ∧
    a !! k = if bool_decide (k ∈ answerFields) then lastWhere accepts k data else None.
Proof.
  intros Hdata. exists (foldl absorbed ∅ data). split.
  - by apply forEach_absorbed.
  - rewrite foldl_absorbed_lookup, lookup_empty.
    case_bool_decide; [|done]. by destruct (lastWhere _ _ _).
Qed.

(** C1, as amended.  For a sequence of events none of which is [null] or
    [undefined], the fold returns a draft, and each of the six fields of
    the draft holds the value of the last event that carried the field
    with a value the guard accepts (truthy, or for [sql_valid] anything
    but [undefined]).  Folding further events that carry no accepted
    value for the field leaves it as it was, a field once set stays set,
    and it never holds [undefined]. *)
Theorem fold_last_accepted data more k :
  Forall (λ e, nullish e = false) data →
  Forall (λ e, nullish e = false) more →
  k ∈ answerFields →
  ∃ a a', foldAnswer data = Normal a ∧ foldAnswer (data ++ more) = Normal a'
    ∧ a !! k = lastWhere accepts k data
    ∧ (lastWhere accepts k more = None → a' !! k = a !! k)
    ∧ (is_Some (a !! k) → is_Some (a' !! k))
    ∧ a !! k ≠ Some JUndefined.
Proof.
  intros Hdata Hmore Hk.
  destruct (foldAnswer_lookup data k Hdata) as (a & Ha & Hak).
  destruct (foldAnswer_lookup (data ++ more) k) as (a' & Ha' & Hak').
  { by apply Forall_app. }
  rewrite bool_decide_eq_true_2 in Hak, Hak' by done.
  rewrite lastWhere_app in Hak'.
  exists a, a'. repeat split; try done.
  - intros Hnone. by rewrite Hak', Hnone.
  - rewrite Hak', Hak. intros [v Hv]. rewrite Hv. by destruct (lastWhere _ _ more).
  - rewrite Hak. intros Hu. apply lastWhere_passes in Hu.
    by rewrite accepts_undefined in Hu.
Qed.

(** The amended C1 at [{answer: "a"}, {sql_valid: false}] followed by
    [{answer: ""}]. *)
Lemma fold_last_accepted_witness :
  ∃ a a', foldAnswer [ev "answer" (JStr "a"); ev "sql_valid" (JBool false)] = Normal a
    ∧ foldAnswer ([ev "answer" (JStr "a"); ev "sql_valid" (JBool false)]
                  ++ [ev "answer" (JStr "")]) = Normal a'
    ∧ a !! "answer" = Some (JStr "a") ∧ a' !! "answer" = Some (JStr "a").
Proof.
  destruct (fold_last_accepted
              [ev "answer" (JStr "a"); ev "sql_valid" (JBool false)]
              [ev "answer" (JStr "")] "answer")
    as (a & a' & Ha & Ha' & Hk & Hkeep & _).
  - by repeat constructor.
  - by repeat constructor.
  - field_in.
  - exists a, a'. split; [exact Ha|]. split; [exact Ha'|].
    assert (a !! "answer" = Some (JStr "a")) as Hv.
    { rewrite Hk. reflexivity. }
    split; [exact Hv|]. rewrite Hkeep; [exact Hv | reflexivity].
Defined.

(** C1 as stated fails: after [{answer: "a"}, {answer: ""}] the draft
    holds ["a"], while the last event that carried [answer] at all
    carried [""]. *)
Lemma fold_last_present_counterexample :
  ¬ (∀ data k, Forall (λ e, nullish e = false) data → k ∈ answerFields →
       ∃ a, foldAnswer data = Normal a ∧ a !! k = lastWhere present k data).
Proof.
  intros Hclaim.
  destruct (Hclaim [ev "answer" (JStr "a"); ev "answer" (JStr "")] "answer")
    as (a & Ha & Hk).
  - by repeat constructor.
  - field_in.
  - vm_compute in Ha. injection Ha as <-. vm_compute in Hk. discriminate Hk.
Qed.

(** C10.  One step of the fold on an event that is not nullish: a field
    other than [sql_valid] whose value in the event is falsy keeps the
    value accumulated so far; [sql_valid] is written whenever the event's
    value is not [undefined] and kept when it is, so [sql_valid = false]
    replaces an earlier [true]. *)
Theorem falsy_field_is_skipped a e k :
  nullish e = false →
  ∃ a', onMessage a e = Normal a'
    ∧ (k ∈ answerFields → k ≠ "sql_valid" → truthy (readProp e k) = false →
       a' !! k = a !! k)
    ∧ (readProp e "sql_valid" ≠ JUndefined →
       a' !! "sql_valid" = Some (readProp e "sql_valid"))
    ∧ (readProp e "sql_valid" = JUndefined → a' !! "sql_valid" = a !! "sql_valid")
    ∧ (a !! "sql_valid" = Some (JBool true) → readProp e "sql_valid" = JBool false →
       a' !! "sql_valid" = Some (JBool false)).
Proof.
  intros He. exists (absorbed a e). split; [by apply onMessage_absorbed|].
  assert (∀ v, v ≠ JUndefined → notUndefined v = true) as Hnot.
  { intros v Hv. by destruct v. }
  repeat split.
  - intros Hk Hne Hfalsy. rewrite absorbed_lookup. unfold accepts.
    rewrite (proj2 (String.eqb_neq _ _) Hne), Hfalsy. by rewrite andb_false_r.
  - intros Hv. rewrite absorbed_lookup. unfold accepts. simpl.
    by rewrite Hnot.
  - intros Hv. rewrite absorbed_lookup. unfold accepts. simpl. by rewrite Hv.
  - intros _ Hv. rewrite absorbed_lookup. unfold accepts. simpl. by rewrite Hv.
Qed.

(** C10 at the draft [{answer: "x", sql_valid: true}] and the event
    [{answer: "", sql_valid: false}]. *)
Lemma falsy_field_is_skipped_witness :
  ∃ a', onMessage (<["sql_valid" := JBool true]> {[ "answer" := JStr "x" ]})
                  (JObj (<["sql_valid" := JBool false]> {[ "answer" := JStr "" ]}))
        = Normal a'
    ∧ a' !! "answer" = Some (JStr "x")
    ∧ a' !! "sql_valid" = Some (JBool false).
Proof.
  destruct (falsy_field_is_skipped
              (<["sql_valid" := JBool true]> {[ "answer" := JStr "x" ]})
              (JObj (<["sql_valid" := JBool false]> {[ "answer" := JStr "" ]}))
              "answer" eq_refl)
    as (a' & Ha' & Hskip & _ & _ & Hvalid).
  exists a'. split; [exact Ha'|]. split.
  - rewrite Hskip; [reflexivity | field_in | discriminate | reflexivity].
  - apply Hvalid; reflexivity.
Defined.

(** C6, as amended.  On a sequence of events none of which is [null] or
    [undefined] (records with unknown or missing fields, arrays, strings,
    numbers, booleans) the fold returns a draft without throwing; a name
    outside the six answer fields never enters the draft, and a field no
    event carries with an accepted value stays absent. *)
Theorem fold_total_on_records data :
  Forall (λ e, nullish e = false) data →
  ∃ a, foldAnswer data = Normal a
    ∧ (∀ k, k ∉ answerFields → a !! k = None)
    ∧ (∀ k, lastWhere accepts k data = None → a !! k = None).
Proof.
  intros Hdata. exists (foldl absorbed ∅ data). split; [by apply forEach_absorbed|].
  split; intros k Hk; rewrite foldl_absorbed_lookup, lookup_empty.
  - by rewrite bool_decide_eq_false_2.
  - rewrite Hk. by case_bool_decide.
Qed.

(** The amended C6 at ["noise", 7, [], {stage: "x"}]. *)
Lemma fold_total_on_records_witness :
  ∃ a, foldAnswer [JStr "noise"; JNum 7; JArr []; JObj {[ "stage" := JStr "x" ]}]
       = Normal a
    ∧ a !! "stage" = None ∧ a !! "answer" = None.
Proof.
  destruct (fold_total_on_records
              [JStr "noise"; JNum 7; JArr []; JObj {[ "stage" := JStr "x" ]}])
    as (a & Ha & Hunknown & Hmissing).
  - by repeat constructor.
  - exists a. split; [exact Ha|]. split.
    + apply Hunknown. unfold answerFields. intros Hin.
      repeat (apply elem_of_cons in Hin as [Hin|Hin]; [discriminate Hin|]).
      by apply elem_of_nil in Hin.
    + apply Hmissing. reflexivity.
Defined.

(** C6 as stated fails: on the one-element sequence [[null]] the read
    [message.answer] throws and the fold returns no draft. *)
Lemma fold_null_event_counterexample :
  ¬ (∀ data, ∃ a, foldAnswer data = Normal a).
Proof.
  intros Hclaim. destruct (Hclaim [JNull]) as (a & Ha). discriminate Ha.
Qed.

(** A nullish element anywhere in the sequence ends the fold with the
    TypeError of the first property read. *)
Lemma foldAnswer_nullish_throws data :
  Exists (λ e, nullish e = true) data → foldAnswer data = Throw TypeError.
Proof.
  unfold foldAnswer. generalize (∅ : gmap string JsValue).
  induction data as [|e rest IH]; intros a Hex.
  - by apply Exists_nil in Hex.
  - simpl. destruct (nullish e) eqn:He.
    + by rewrite onMessage_nullish.
    + rewrite onMessage_absorbed by done. simpl. apply IH.
      apply Exists_cons in Hex as [Hex|Hex]; [congruence | done].
Qed.

End FoldClaims.

(** ** Events with disjoint fields *)

Section Disjoint.

Implicit Types (a : gmap string JsValue) (e v : JsValue) (k : string).
Implicit Types (data more : list JsValue).

Lemma sharesField_spec test e1 e2 :
  sharesField test e1 e2 = true
  ↔ ∃ k, k ∈ answerFields ∧ test k (readProp e1 k) = true ∧ test k (readProp e2 k) = true.
Proof.
  unfold sharesField. rewrite existsb_exists. split.
  - intros (k & Hin & Hk). apply andb_true_iff in Hk. exists k.
    by rewrite list_elem_of_In.
  - intros (k & Hin & H1 & H2). exists k. rewrite <- list_elem_of_In, H1, H2. done.
Qed.

Lemma sharesField_false_sym test e1 e2 :
  sharesField test e1 e2 = false → sharesField test e2 e1 = false.
Proof.
  rewrite <- !not_true_iff_false, !sharesField_spec.
  intros Hno (k & Hin & H1 & H2). apply Hno. by exists k.
Qed.

Lemma carried_disjoint e1 e2 :
  sharesField accepts e1 e2 = false → carried accepts e1 ##ₘ carried accepts e2.
Proof.
  rewrite <- not_true_iff_false, sharesField_spec. intros Hno.
  apply map_disjoint_spec. intros k v1 v2. rewrite !carried_lookup.
  case_bool_decide as Hin; simpl; [|done].
  destruct (accepts k (readProp e1 k)) eqn:H1; [|done].
  destruct (accepts k (readProp e2 k)) eqn:H2; [|done].
  intros _ _. apply Hno. by exists k.
Qed.

Lemma absorbed_swap a e1 e2 :
  sharesField accepts e1 e2 = false →
  absorbed (absorbed a e1) e2 = absorbed (absorbed a e2) e1.
Proof.
  intros Hno. rewrite !absorbed_union, !(assoc_L (∪)).
  f_equal. apply map_union_comm. symmetry. by apply carried_disjoint.
Qed.

Lemma disjointFields_cons e rest :
  disjointFields accepts (e :: rest) = true
  ↔ apart e rest ∧ disjointFields accepts rest = true.
Proof.
  simpl. rewrite andb_true_iff, forallb_forall. unfold apart.
  setoid_rewrite negb_true_iff. setoid_rewrite list_elem_of_In. done.
Qed.

(** Reordering a sequence with disjoint fields keeps the fields disjoint
    and the draft the same, from any starting draft. *)
Lemma disjoint_permutation data data' :
  data ≡ₚ data' →
  disjointFields accepts data = true →
  disjointFields accepts data' = true
  ∧ ∀ a, foldl absorbed a data = foldl absorbed a data'.
Proof.
  induction 1 as [|e l l' Hperm IH|e1 e2 l|l1 l2 l3 _ IH1 _ IH2].
  - done.
  - rewrite !disjointFields_cons. intros [Hap Hl].
    destruct (IH Hl) as [Hl' Hfold]. repeat split; [|done|].
    + intros e' He'. apply Hap. by rewrite Hperm.
    + intros a. simpl. apply Hfold.
  - rewrite !disjointFields_cons. intros (Hap2 & Hap1 & Hl).
    assert (sharesField accepts e2 e1 = false) as H21.
    { apply Hap2. apply list_elem_of_here. }
    repeat split; [| |done|].
    + intros e' He'. apply elem_of_cons in He' as [->|He'].
      * by apply sharesField_false_sym.
      * by apply Hap1.
    + intros e' He'. apply Hap2. by apply list_elem_of_further.
    + intros a. simpl. f_equal. by apply absorbed_swap.
  - intros H1. destruct (IH1 H1) as [H2 Hf12].
    destruct (IH2 H2) as [H3 Hf23]. split; [done|].
    intros a. by rewrite Hf12.
Qed.

Lemma disjoint_fold_union data a :
  disjointFields accepts data = true →
  foldl absorbed a data = unionFields accepts data ∪ a.
Proof.
  unfold unionFields. revert a. induction data as [|e rest IH]; intros a.
  - intros _. simpl. by rewrite (left_id_L ∅ (∪)).
  - rewrite disjointFields_cons. intros [Hap Hrest]. simpl.
    rewrite IH, absorbed_union, !(assoc_L (∪)) by done. f_equal.
    apply map_union_comm, map_disjoint_union_list_l_2, Forall_fmap, Forall_forall.
    intros e' He'. simpl. symmetry. by apply carried_disjoint, Hap.
Qed.

(** C8, as amended.  When no answer field is carried with an accepted
    value by two events of a sequence (none of them nullish), the fold
    returns the union of the accepted fields of all events, and folding
    any permutation of the sequence returns the same draft. *)
Theorem disjoint_fold_is_union data data' :
  Forall (λ e, nullish e = false) data →
  disjointFields accepts data = true →
  data ≡ₚ data' →
  foldAnswer data = Normal (unionFields accepts data)
  ∧ foldAnswer data' = foldAnswer data.
Proof.
  intros Hdata Hdisj Hperm. unfold foldAnswer.
  rewrite !forEach_absorbed by (by rewrite <- ?Hperm).
  destruct (disjoint_permutation data data' Hperm Hdisj) as [_ Hfold].
  split.
  - by rewrite disjoint_fold_union, (right_id_L ∅ (∪)).
  - by rewrite Hfold.
Qed.

(** The amended C8 at [{answer: "a"}, {sql_valid: false}] and its
    swap. *)
Lemma disjoint_fold_is_union_witness :
  foldAnswer [ev "answer" (JStr "a"); ev "sql_valid" (JBool false)]
  = Normal (unionFields accepts [ev "answer" (JStr "a"); ev "sql_valid" (JBool false)])
  ∧ foldAnswer [ev "sql_valid" (JBool false); ev "answer" (JStr "a")]
    = foldAnswer [ev "answer" (JStr "a"); ev "sql_valid" (JBool false)].
Proof.
  apply (disjoint_fold_is_union
           [ev "answer" (JStr "a"); ev "sql_valid" (JBool false)]
           [ev "sql_valid" (JBool false); ev "answer" (JStr "a")]).
  - by repeat constructor.
  - reflexivity.
  - apply perm_swap.
Defined.

(** C8 as stated fails: the single event [{answer: ""}] has its fields
    disjoint from nobody's, the union of the events' fields holds
    [answer = ""], and the fold returns the empty draft. *)
Lemma union_of_present_counterexample :
  ¬ (∀ data data', Forall (λ e, nullish e = false) data →
       disjointFields present data = true → data ≡ₚ data' →
       foldAnswer data = Normal (unionFields present data)
       ∧ foldAnswer data' = foldAnswer data).
Proof.
  intros Hclaim.
  destruct (Hclaim [ev "answer" (JStr "")] [ev "answer" (JStr "")]) as [Hunion _].
  - by repeat constructor.
  - reflexivity.
  - done.
  - vm_compute in Hunion. discriminate Hunion.
Qed.

End Disjoint.

(** ** The request body *)

Section Request.

Context (Number : string → JsValue).
Implicit Types (p : Page).

(** The field names of the request, and the three values the page fixes. *)
Lemma requestBody_fields p :
  dom (requestBody Number p)
  = {[ "question"; "type"; "llm_model" ]}
    ∪ (if truthy (paramValue (data_source_id p))
       then {[ "dataset_id"; "selected_tables" ]} else ∅)
    ∪ (if truthy (paramValue (conversation_id p))
       then {[ "conversaction_id" ]} else ∅)
  ∧ requestBody Number p !! "question" = Some (JStr (question p))
  ∧ requestBody Number p !! "llm_model" = Some (selectedModel p)
  ∧ requestBody Number p !! "type"
    = Some (jsOr (datasetType p) (JStr "direct_chat")).
Proof.
  unfold requestBody.
  destruct (truthy (paramValue (data_source_id p)));
    destruct (truthy (paramValue (conversation_id p)));
    (split; [rewrite ?dom_insert_L, dom_empty_L; set_solver|]);
    by simplify_map_eq.
Qed.

(** C7, evaluated where it breaks.  On the route of conversation 7 the
    request has four fields; the conversation identifier travels under
    the name [conversaction_id] and no field is named
    [conversation_id], in this page and in its previous version. *)
Theorem requestBody_conversation_key :
  dom (requestBody Number samplePage)
  = {[ "question"; "type"; "llm_model"; "conversaction_id" ]}
  ∧ requestBody Number samplePage !! "conversation_id" = None
  ∧ requestBody Number samplePage !! "conversaction_id" = Some (Number "7")
  ∧ ChatLegacy.requestBody Number samplePage !! "conversation_id" = None.
Proof.
  split; [|split; [|split]].
  - destruct (requestBody_fields samplePage) as [-> _]. simpl. set_solver.
  - apply not_elem_of_dom. destruct (requestBody_fields samplePage) as [-> _].
    simpl. set_solver.
  - done.
  - done.
Qed.

End Request.

(** ** The conversation *)

Section Conversation.

Context (Number : string → JsValue).
Implicit Types (p : Page) (data : list JsValue).

Lemma onSuccess_appends m data prev :
  Forall (λ e, nullish e = false) data →
  ∃ a, foldAnswer data = Normal a
    ∧ onSuccess m data prev = Normal (prev ++ [ai_answer (<["model_used" := m]> a)]).
Proof.
  intros Hdata. exists (foldl absorbed ∅ data).
  unfold onSuccess, foldAnswer. by rewrite forEach_absorbed.
Qed.

Lemma handleSuccess_messages data p :
  messages (handleSuccess data p) = messages p
  ∨ ∃ a, foldAnswer data = Normal a
      ∧ messages (handleSuccess data p)
        = messages p ++ [ai_answer (<["model_used" := selectedModel p]> a)].
Proof.
  unfold handleSuccess, handleSuccessOf, onSuccess.
  destruct (foldAnswer data) as [a|err]; simpl; [right; by exists a | by left].
Qed.

Lemma dataSourceEffect_messages now p p' :
  dataSourceEffect Number now p = Normal p' →
  messages p' = messages p
  ∨ messages p = [] ∧ ∃ upload, messages p' = [file_upload upload].
Proof.
  unfold dataSourceEffect.
  destruct (_ && _); [|intros [= <-]; by left].
  destruct (dataSets p); try done.
  destruct (arrayFilter _ _) as [[|dataSet rest]|]; simpl; try done.
  { intros [= <-]. by left. }
  destruct (truthy dataSet) eqn:Ht; [|intros [= <-]; by left].
  assert (nullish dataSet = false) as Hn by (by destruct dataSet).
  rewrite !getProp_readProp by done. simpl.
  case_bool_decide as Hlen; simpl.
  - destruct (strictEqStr _ _); simpl.
    + unfold fileUploadOf. rewrite !getProp_readProp by done. simpl.
      intros [= <-]. right. split; [by apply length_zero_iff_nil | by eexists].
    + intros [= <-]. by left.
  - intros [= <-]. by left.
Qed.

Lemma perform_extends a p : messages p `prefix_of` messages (perform Number a p).
Proof.
  destruct a as [[q| |m|d now|dsid cid now]|[data|data]]; simpl; try done.
  - by apply prefix_app_r.
  - unfold runEffect.
    destruct (dataSourceEffect _ _ _) as [p'|] eqn:Heff; [|done].
    apply dataSourceEffect_messages in Heff as [->| [Hnil _]]; [done|].
    simpl in Hnil. rewrite Hnil. apply prefix_nil.
  - unfold runEffect.
    destruct (dataSourceEffect _ _ _) as [p'|] eqn:Heff; [|done].
    apply dataSourceEffect_messages in Heff as [->| [Hnil _]]; [done|].
    simpl in Hnil. rewrite Hnil. apply prefix_nil.
  - destruct (handleSuccess_messages data p) as [->|(a & _ & ->)]; [done|].
    by apply prefix_app_r.
Qed.

(** C9.  Whatever the user, the store, the router and the stream
    callbacks do, in any order, the message list the page started from
    is a prefix of the message list it ends with, so no message is
    removed, moved or edited and the length never decreases. *)
Theorem conversation_append_only actions p :
  messages p `prefix_of` messages (performAll Number actions p)
  ∧ (length (messages p) ≤ length (messages (performAll Number actions p)))%nat.
Proof.
  assert (messages p `prefix_of` messages (performAll Number actions p)) as Hpre.
  { revert p. induction actions as [|a rest IH]; intros p; simpl; [done|].
    etrans; [apply (perform_extends a)|apply IH]. }
  split; [done | by apply prefix_length].
Qed.

Lemma dataSourceEffect_selectedModel now p p' :
  dataSourceEffect Number now p = Normal p' → selectedModel p' = selectedModel p.
Proof.
  unfold dataSourceEffect.
  destruct (_ && _); [|by intros [= <-]].
  destruct (dataSets p); try done.
  destruct (arrayFilter _ _) as [[|dataSet rest]|]; simpl; try done.
  { by intros [= <-]. }
  destruct (truthy dataSet) eqn:Ht; [|by intros [= <-]].
  assert (nullish dataSet = false) as Hn by (by destruct dataSet).
  rewrite !getProp_readProp by done. simpl.
  destruct (_ && _); simpl.
  - unfold fileUploadOf. rewrite !getProp_readProp by done. simpl.
    by intros [= <-].
  - by intros [= <-].
Qed.

Lemma perform_selectedModel a p :
  selectedModel (perform Number a p) = lastChosen (selectedModel p) [a].
Proof.
  assert (∀ now q, selectedModel (runEffect Number now q) = selectedModel q)
    as Heff.
  { intros now q. unfold runEffect.
    destruct (dataSourceEffect _ _ _) as [q'|] eqn:Heq; [|done].
    by apply dataSourceEffect_selectedModel in Heq. }
  destruct a as [[q| |m|d now|dsid cid now]|[data|data]]; simpl; try done.
  - by rewrite Heff.
  - by rewrite Heff.
  - unfold handleSuccess, handleSuccessOf. by destruct (onSuccess _ _ _).
Qed.

Lemma performAll_selectedModel actions p :
  selectedModel (performAll Number actions p)
  = lastChosen (selectedModel p) actions.
Proof.
  revert p. induction actions as [|a rest IH]; intros p; [done|].
  unfold performAll, lastChosen in *. simpl.
  rewrite IH. by rewrite perform_selectedModel.
Qed.

Lemma performAll_snoc actions a p :
  performAll Number (actions ++ [a]) p
  = perform Number a (performAll Number actions p).
Proof. unfold performAll. by rewrite foldl_app. Qed.

(** C3.  The answer of a completed stream (no nullish event) is the fold
    of its events stamped with the [selectedModel] the called [onSuccess]
    closure holds, never with a field of an event.  With the closure the
    spec has the hook call, the one current at completion, the stamp is
    the selection at the moment of assembly: after a question is asked,
    whatever happens on the page until the stream completes, the answer
    carries the last model chosen meanwhile (the one selected at
    submission, which the request carries, only if none was chosen); a
    model [m] chosen while the question is streaming is the one
    stamped. *)
Theorem model_used_read_at_assembly p between data :
  Forall (λ e, nullish e = false) data →
  ∃ a, foldAnswer data = Normal a
    ∧ a !! "model_used" = None
    ∧ (∀ captured q,
         messages (handleSuccessOf captured data q)
         = messages q ++ [ai_answer (<["model_used" := captured]> a)])
    ∧ (askQuestion Number p).2 !! "llm_model" = Some (selectedModel p)
    ∧ last (messages (performAll Number
              (ByUser Asked :: between ++ [ByHook (Success data)]) p))
      = Some (ai_answer (<["model_used" := lastChosen (selectedModel p) between]> a))
    ∧ (∀ m, last (messages (performAll Number
                   (ByUser Asked :: between
                    ++ [ByUser (ModelChosen m); ByHook (Success data)]) p))
            = Some (ai_answer (<["model_used" := m]> a))).
Proof.
  intros Hdata.
  destruct (foldAnswer_lookup data "model_used" Hdata) as (a & Ha & Hnone).
  rewrite bool_decide_eq_false_2 in Hnone
    by (unfold answerFields; set_solver).
  assert (∀ captured q,
            messages (handleSuccessOf captured data q)
            = messages q ++ [ai_answer (<["model_used" := captured]> a)])
    as Hcall.
  { intros captured q. unfold handleSuccessOf, onSuccess. by rewrite Ha. }
  assert (∀ actions,
            last (messages (performAll Number
                    (ByUser Asked :: actions ++ [ByHook (Success data)]) p))
            = Some (ai_answer
                      (<["model_used" := lastChosen (selectedModel p) actions]> a)))
    as Hrun.
  { intros actions.
    change (ByUser Asked :: actions ++ [ByHook (Success data)])
      with ((ByUser Asked :: actions) ++ [ByHook (Success data)]).
    rewrite performAll_snoc. cbn [perform call].
    unfold handleSuccess. rewrite Hcall, last_snoc.
    by rewrite performAll_selectedModel. }
  exists a. split; [done|]. split; [done|]. split; [done|].
  split; [by destruct (requestBody_fields Number p) as (_ & _ & ? & _)|].
  split; [apply Hrun|].
  intros m.
  replace (between ++ [ByUser (ModelChosen m); ByHook (Success data)])
    with ((between ++ [ByUser (ModelChosen m)]) ++ [ByHook (Success data)])
    by (by rewrite <- (assoc_L (++))).
  rewrite Hrun. unfold lastChosen. by rewrite foldl_app.
Qed.

End Conversation.

(** C3 at the sample page: asked under [gpt-4o-mini], answered after the
    next question was typed and the selection moved to [gpt-4o]. *)
Lemma model_used_read_at_assembly_witness :
  ∃ a, foldAnswer [ev "answer" (JStr "a")] = Normal a
    ∧ (askQuestion sampleNumber samplePage).2 !! "llm_model"
      = Some (JStr "gpt-4o-mini")
    ∧ last (messages (performAll sampleNumber
              [ByUser Asked; ByUser (Typed "next");
               ByUser (ModelChosen (JStr "gpt-4o"));
               ByHook (Success [ev "answer" (JStr "a")])] samplePage))
      = Some (ai_answer (<["model_used" := JStr "gpt-4o"]> a)).
Proof.
  destruct (model_used_read_at_assembly sampleNumber samplePage
              [ByUser (Typed "next")] [ev "answer" (JStr "a")])
    as (a & Ha & _ & _ & Hsent & _ & Hstamp).
  - by repeat constructor.
  - exists a. split; [exact Ha|].
    split; [exact Hsent | exact (Hstamp (JStr "gpt-4o"))].
Defined.

(** ** Supersession *)

Section Supersession.

Context (Number : string → JsValue).
Implicit Types (app : App) (inputs : list Input) (s : Signal).

Lemma deliver_stale sid s app : sid ≠ counter (hook app) → deliver sid s app = app.
Proof. intros Hne. unfold deliver. by rewrite bool_decide_eq_false_2. Qed.

Lemma deliver_counter sid s app : counter (hook (deliver sid s app)) = counter (hook app).
Proof. unfold deliver. case_bool_decide; [|done]. by destruct s. Qed.

Lemma step_counter i app :
  (counter (hook app) ≤ counter (hook (step Number i app)))%nat.
Proof.
  destruct i as [u|sid s]; simpl.
  - destruct u; simpl; lia.
  - by rewrite deliver_counter.
Qed.

Lemma run_counter inputs app :
  (counter (hook app) ≤ counter (hook (run Number inputs app)))%nat.
Proof.
  revert app. induction inputs as [|i rest IH]; intros app; simpl; [done|].
  etrans; [apply (step_counter i)|apply IH].
Qed.

Lemma run_silence old inputs app :
  (old < counter (hook app))%nat →
  run Number inputs app = run Number (silence old inputs) app.
Proof.
  revert app. induction inputs as [|i rest IH]; intros app Hold; [done|].
  assert (old < counter (hook (step Number i app)))%nat as Hnext.
  { eapply Nat.lt_le_trans; [done|apply step_counter]. }
  destruct i as [u|sid s]; simpl.
  - by apply IH.
  - destruct (Nat.eqb_spec sid old) as [->|Hne]; simpl.
    + rewrite deliver_stale by lia. by apply IH.
    + apply IH. done.
Qed.

Lemma run_cons i inputs app :
  run Number (i :: inputs) app = run Number inputs (step Number i app).
Proof. done. Qed.

Lemma run_app inputs1 inputs2 app :
  run Number (inputs1 ++ inputs2) app = run Number inputs2 (run Number inputs1 app).
Proof. apply foldl_app. Qed.

Lemma run_events sid (es : list JsValue) app :
  counter (hook app) = sid →
  streamData (hook app) = processingMessages (page app) →
  hook (run Number (FromSession sid ∘ Event <$> es) app)
  = mkHook sid (streamData (hook app) ++ es)
  ∧ page (run Number (FromSession sid ∘ Event <$> es) app)
    = setProcessingMessages (streamData (hook app) ++ es) (page app).
Proof.
  revert app. induction es as [|e rest IH]; intros app Hsid Hsame.
  - simpl. rewrite (right_id_L [] (++)).
    destruct app as [[] []]; simpl in *. by subst.
  - rewrite fmap_cons, !run_cons. cbn [step compose].
    assert (deliver sid (Event e) app
            = mkApp (call (StreamData (streamData (hook app) ++ [e])) (page app))
                    (mkHook (counter (hook app)) (streamData (hook app) ++ [e])))
      as ->.
    { unfold deliver. by rewrite bool_decide_eq_true_2. }
    destruct (IH (mkApp (call (StreamData (streamData (hook app) ++ [e])) (page app))
                        (mkHook (counter (hook app)) (streamData (hook app) ++ [e]))))
      as [Hh Hp]; [done|done|].
    rewrite Hh, Hp. simpl. by rewrite <- !(assoc_L (++)).
Qed.

Lemma handleSuccess_Normal data p ms :
  onSuccess (selectedModel p) data (messages p) = Normal ms →
  handleSuccess data p = setMessages ms p.
Proof. intros Hs. unfold handleSuccess, handleSuccessOf. by rewrite Hs. Qed.

(** Once the next question is asked, the session that was current is
    stale for good: its signals change nothing, one at a time or
    interleaved with anything else. *)
Lemma stale_session_is_silent inputs app :
  let s1 := counter (hook app) in
  let app2 := step Number (User Asked) app in
  counter (hook app2) = S s1
  ∧ (∀ s, deliver s1 s app2 = app2)
  ∧ (s1 < counter (hook (run Number inputs app2)))%nat
  ∧ run Number inputs app2 = run Number (silence s1 inputs) app2.
Proof.
  simpl. split; [done|]. split; [|split].
  - intros s. apply deliver_stale. simpl. lia.
  - eapply Nat.lt_le_trans; [|apply run_counter]. simpl. lia.
  - apply run_silence. simpl. lia.
Qed.

(** What is assembled is the fold of the new session's events alone. *)
Lemma current_session_is_assembled inputs (es : list JsValue) app :
  let s1 := counter (hook app) in
  let app2 := step Number (User Asked) app in
  silence s1 inputs = (FromSession (S s1) ∘ Event <$> es) ++ [FromSession (S s1) Succeeded] →
  Forall (λ e, nullish e = false) es →
  ∃ a, foldAnswer es = Normal a
    ∧ processingMessages (page (run Number inputs app2)) = es
    ∧ messages (page (run Number inputs app2))
      = messages (page app)
        ++ [user_question (question (page app));
            ai_answer (<["model_used" := selectedModel (page app)]> a)].
Proof.
  intros s1 app2 Hsil Hes.
  destruct (onSuccess_appends (selectedModel (page app2)) es (messages (page app2)) Hes)
    as (a & Ha & Hs).
  exists a. split; [done|].
  rewrite (run_silence s1) by (simpl; lia).
  rewrite Hsil, run_app.
  destruct (run_events (S s1) es app2) as [Hh Hp]; [done|done|].
  set (app3 := run Number (FromSession (S s1) ∘ Event <$> es) app2) in *.
  rewrite run_cons. cbn [run foldl step].
  unfold deliver. rewrite Hh. cbn [counter streamData].
  rewrite bool_decide_eq_true_2 by done. cbn [call page].
  rewrite Hp. simpl.
  erewrite handleSuccess_Normal by exact Hs. simpl.
  by rewrite <- (assoc_L (++)).
Qed.

(** C2.  Let session [s1] be current and a new question be asked, which
    opens session [s1 + 1].  From then on the counter stays above [s1];
    every signal of [s1] (event or terminal) leaves the whole application
    state unchanged, so any later run of inputs ends in the same state as
    the run with the signals of [s1] removed; and when what remains is the
    events [es] of the new session followed by its success terminal, the
    progress state is [es] and the one answer appended after the question
    is the fold of [es]. *)
Theorem superseded_session_is_ignored inputs (es : list JsValue) app :
  let s1 := counter (hook app) in
  let app2 := step Number (User Asked) app in
  counter (hook app2) = S s1
  ∧ (∀ s, deliver s1 s app2 = app2)
  ∧ (s1 < counter (hook (run Number inputs app2)))%nat
  ∧ run Number inputs app2 = run Number (silence s1 inputs) app2
  ∧ (silence s1 inputs
       = (FromSession (S s1) ∘ Event <$> es) ++ [FromSession (S s1) Succeeded] →
     Forall (λ e, nullish e = false) es →
     ∃ a, foldAnswer es = Normal a
       ∧ processingMessages (page (run Number inputs app2)) = es
       ∧ messages (page (run Number inputs app2))
         = messages (page app)
           ++ [user_question (question (page app));
               ai_answer (<["model_used" := selectedModel (page app)]> a)]).
Proof.
  intros s1 app2.
  destruct (stale_session_is_silent inputs app) as (Hc & Hd & Hlt & Hrun).
  repeat (split; [done|]).
  apply current_session_is_assembled.
Qed.

End Supersession.

(** C2 at the sample application: session 0 delivers an event and its
    success terminal after session 1 was opened and delivered its own
    event; only the event of session 1 is shown and assembled. *)
Lemma superseded_session_is_ignored_witness :
  ∃ a, foldAnswer [ev "answer" (JStr "new")] = Normal a
    ∧ processingMessages
        (page (run sampleNumber
                 [FromSession 1 (Event (ev "answer" (JStr "new")));
                  FromSession 0 (Event (ev "answer" (JStr "old")));
                  FromSession 0 Succeeded;
                  FromSession 1 Succeeded]
                 (step sampleNumber (User Asked) sampleApp)))
      = [ev "answer" (JStr "new")]
    ∧ messages
        (page (run sampleNumber
                 [FromSession 1 (Event (ev "answer" (JStr "new")));
                  FromSession 0 (Event (ev "answer" (JStr "old")));
                  FromSession 0 Succeeded;
                  FromSession 1 Succeeded]
                 (step sampleNumber (User Asked) sampleApp)))
      = [user_question "Provide summary of test case";
         ai_answer (<["model_used" := JStr "gpt-4o-mini"]> a)].
Proof.
  destruct (superseded_session_is_ignored sampleNumber
              [FromSession 1 (Event (ev "answer" (JStr "new")));
               FromSession 0 (Event (ev "answer" (JStr "old")));
               FromSession 0 Succeeded;
               FromSession 1 Succeeded]
              [ev "answer" (JStr "new")] sampleApp)
    as (_ & _ & _ & _ & Hassembled).
  apply Hassembled.
  - reflexivity.
  - by repeat constructor.
Defined.

(** ** The model catalog and the default selection *)

Section DefaultModel.

Implicit Types (selected avail m : JsValue) (models : list JsValue) (v : string).

Lemma strictEqStr_true x lit : strictEqStr x lit = true → x = JStr lit.
Proof. destruct x; simpl; try done. intros Heq. by apply String.eqb_eq in Heq as ->. Qed.

Lemma defaultModelEffect_truthy selected avail :
  truthy selected = true → defaultModelEffect selected avail = selected.
Proof. intros Ht. unfold defaultModelEffect. by rewrite Ht. Qed.

Lemma findDefault_records models :
  Forall (λ m, nullish m = false) models →
  findDefault models = Normal (default JUndefined (List.find isDefaultModel models)).
Proof.
  unfold findDefault. induction 1 as [|m rest Hm _ IH]; simpl; [done|].
  rewrite getProp_readProp by done. simpl. unfold isDefaultModel at 1.
  by destruct (strictEqStr _ _).
Qed.

Lemma findDefault_found models m :
  findDefault models = Normal m →
  m = JUndefined ∨ getProp m "name" = Normal (JStr "gpt-4o-mini").
Proof.
  unfold findDefault. induction models as [|x rest IH]; simpl.
  - intros [= <-]. by left.
  - destruct (getProp x "name") as [name|] eqn:Hname; simpl; [|done].
    destruct (strictEqStr name "gpt-4o-mini") eqn:Heq; [|done].
    intros [= <-]. right. by apply strictEqStr_true in Heq as ->.
Qed.

Lemma defaultModelEffect_cases selected avail :
  defaultModelEffect selected avail = selected
  ∨ defaultModelEffect selected avail = JStr "gpt-4o-mini".
Proof.
  unfold defaultModelEffect.
  destruct (truthy selected); simpl; [by left|].
  destruct avail; try by left.
  case_bool_decide; [|by left].
  destruct (findDefault xs) as [m|] eqn:Hfind; [|by left].
  destruct (truthy m) eqn:Ht; [|by left].
  apply findDefault_found in Hfind as [-> | Hname]; [done | rewrite Hname; by right].
Qed.

Lemma defaultModelEffect_idempotent selected avail :
  defaultModelEffect (defaultModelEffect selected avail) avail
  = defaultModelEffect selected avail.
Proof.
  destruct (defaultModelEffect_cases selected avail) as [Heq|Heq]; rewrite Heq.
  - done.
  - by apply defaultModelEffect_truthy.
Qed.

Lemma defaultModelEffect_records selected models :
  truthy selected = false →
  Forall (λ m, nullish m = false) models →
  defaultModelEffect selected (JArr models)
  = if existsb isDefaultModel models then JStr "gpt-4o-mini" else selected.
Proof.
  intros Hf Hrec. unfold defaultModelEffect. rewrite Hf. simpl.
  rewrite findDefault_records by done.
  destruct (List.find isDefaultModel models) as [m|] eqn:Hfind; simpl.
  - apply find_some in Hfind as [Hin Hm].
    assert (existsb isDefaultModel models = true) as ->.
    { apply existsb_exists. by exists m. }
    assert (0 < length models)%nat by (destruct models; [done | simpl; lia]).
    rewrite bool_decide_eq_true_2 by done.
    unfold isDefaultModel in Hm. apply strictEqStr_true in Hm.
    destruct m; try done; simpl; unfold readProp in Hm; simpl in Hm; by rewrite Hm.
  - assert (existsb isDefaultModel models = false) as ->.
    { apply not_true_iff_false. rewrite existsb_exists. intros (m & Hin & Hm).
      by rewrite (find_none _ _ Hfind m Hin) in Hm. }
    by case_bool_decide.
Qed.

Lemma selectorRun_loads fallback evs st :
  truthy (model st) = true →
  Forall isCatalogLoad evs →
  model (selectorRun fallback evs st) = model st.
Proof.
  intros Ht Hevs. revert st Ht.
  induction Hevs as [|ev rest Hev _ IH]; intros st Ht; [done|].
  destruct ev as [outcome|]; [|done].
  assert (model (selectorStep fallback (CatalogLoad outcome) st) = model st) as Hstep.
  { unfold selectorStep. cbn [model availableModels].
    by apply defaultModelEffect_truthy. }
  change (selectorRun fallback (CatalogLoad outcome :: rest) st)
    with (selectorRun fallback rest (selectorStep fallback (CatalogLoad outcome) st)).
  rewrite IH; [done | by rewrite Hstep].
Qed.

(** C4, as amended.  The default-model effect leaves a truthy selection
    alone, whatever the list holds.  With a falsy selection (unset, or
    the empty value of the placeholder option) and a list of records it
    selects [gpt-4o-mini] when the list has an entry of that name and
    changes nothing otherwise.  Running it again changes nothing.  After
    the user selects a non-empty value, no sequence of catalog loads
    changes the selection. *)
Theorem default_model_rule fallback selected avail models evs v st :
  (truthy selected = true → defaultModelEffect selected avail = selected)
  ∧ (truthy selected = false → Forall (λ m, nullish m = false) models →
     defaultModelEffect selected (JArr models)
     = if existsb isDefaultModel models then JStr "gpt-4o-mini" else selected)
  ∧ defaultModelEffect (defaultModelEffect selected avail) avail
    = defaultModelEffect selected avail
  ∧ (v ≠ "" → Forall isCatalogLoad evs →
     model (selectorRun fallback evs (selectorStep fallback (UserSelect v) st))
     = JStr v).
Proof.
  split; [apply defaultModelEffect_truthy|].
  split; [apply defaultModelEffect_records|].
  split; [apply defaultModelEffect_idempotent|].
  intros Hv Hevs.
  assert (truthy (JStr v) = true) as Ht.
  { simpl. apply negb_true_iff. by apply String.eqb_neq. }
  assert (model (selectorStep fallback (UserSelect v) st) = JStr v) as Hstep.
  { unfold selectorStep. cbn [model availableModels].
    by apply defaultModelEffect_truthy. }
  rewrite selectorRun_loads; [done | by rewrite Hstep | done].
Qed.

(** The amended C4 at the fallback lists: an unset selection becomes
    [gpt-4o-mini], a selected [gemma2-9b-it] stays, and a selected
    [gpt-4o] survives a failed and a refused catalog load. *)
Lemma default_model_rule_witness :
  defaultModelEffect JUndefined SelectDataset.fallbackModels = JStr "gpt-4o-mini"
  ∧ defaultModelEffect (JStr "gemma2-9b-it") SelectDataset.fallbackModels
    = JStr "gemma2-9b-it"
  ∧ model (selectorRun ModelSelector.fallbackModels
             [CatalogLoad FetchRejected; CatalogLoad (Body errorBody)]
             (selectorStep ModelSelector.fallbackModels (UserSelect "gpt-4o")
                (mkSelector JUndefined (JArr []))))
    = JStr "gpt-4o".
Proof.
  split; [|split].
  - destruct (default_model_rule (JArr []) JUndefined JUndefined
                [ modelInfo "gpt-4o-mini" "GPT-4o Mini" "Fast and cost-effective"
                    "openai" "fast";
                  modelInfo "gemma2-9b-it" "Gemma 2 9B" "Balanced model"
                    "groq" "balanced" ]
                [] "x" (mkSelector JUndefined JUndefined))
      as (_ & Hunset & _).
    apply Hunset; [reflexivity | by repeat constructor].
  - destruct (default_model_rule (JArr []) (JStr "gemma2-9b-it")
                SelectDataset.fallbackModels [] [] "x"
                (mkSelector JUndefined JUndefined))
      as (Hset & _).
    apply Hset. reflexivity.
  - destruct (default_model_rule ModelSelector.fallbackModels JUndefined JUndefined []
                [CatalogLoad FetchRejected; CatalogLoad (Body errorBody)]
                "gpt-4o" (mkSelector JUndefined (JArr [])))
      as (_ & _ & _ & Hkept).
    apply Hkept; [discriminate | by repeat constructor].
Defined.

(** C4 as stated fails: with [gpt-4o] selected and the default in the
    list, the user picks the placeholder option (value [""]); the effect
    runs again and replaces the user's choice with [gpt-4o-mini]. *)
Lemma explicit_empty_selection_counterexample :
  ¬ (∀ fallback st v,
       model (selectorStep fallback (UserSelect v) st) = JStr v).
Proof.
  intros Hclaim.
  specialize (Hclaim ModelSelector.fallbackModels
                (mkSelector (JStr "gpt-4o") ModelSelector.fallbackModels) "").
  vm_compute in Hclaim. discriminate Hclaim.
Qed.

(** A load that throws puts the fallback list in place. *)
Lemma fetch_failure_gives_fallback fallback outcome avail :
  outcome = FetchRejected ∨ outcome = BodyNotJson
  ∨ outcome = Body JNull ∨ outcome = Body JUndefined →
  fetchModelsWith fallback outcome avail = fallback.
Proof. intros [Ho|[Ho|[Ho|Ho]]]; by subst outcome. Qed.

(** A body that parses but does not announce [status_code] 200 with a
    truthy [data.models] leaves the list as it was. *)
Lemma fetch_other_body_keeps_list fallback props avail :
  strictEqNum (default JUndefined (props !! "status_code")) 200 = false →
  fetchModelsWith fallback (Body (JObj props)) avail = avail.
Proof.
  intros Hs. unfold fetchModelsWith, tryFetch. simpl. by rewrite Hs.
Qed.

(** C5, evaluated where it breaks.  A catalog response that parses but
    reports an error (here [{status_code: 500}], or the [{detail: "Not
    Found"}] of a wrong path) leaves both selectors with the empty list
    instead of the fallback; and the fallback of [ModelSelector.tsx],
    put in place when the fetch is rejected, has no [groq] entry, while
    the one of [SelectDataset.tsx] has one per platform. *)
Theorem fetchModels_error_body_no_fallback :
  ModelSelector.fetchModels (Body errorBody) (JArr []) = JArr []
  ∧ SelectDataset.fetchModels (Body errorBody) (JArr []) = JArr []
  ∧ ModelSelector.fetchModels (Body notFoundBody) (JArr []) = JArr []
  ∧ ModelSelector.fetchModels FetchRejected (JArr []) = ModelSelector.fallbackModels
  ∧ hasPlatform "openai" ModelSelector.fallbackModels = true
  ∧ hasPlatform "groq" ModelSelector.fallbackModels = false
  ∧ hasPlatform "openai" SelectDataset.fallbackModels = true
  ∧ hasPlatform "groq" SelectDataset.fallbackModels = true.
Proof. repeat split; by vm_compute. Qed.

End DefaultModel.

(** ** The scenarios of the specification, run on the model *)

Section Scenarios.

(** A success terminal with no event before it: the answer has no field
    but the stamp. *)
Example zero_event_stream :
  messages (handleSuccess [] samplePage)
  = [ai_answer {[ "model_used" := JStr "gpt-4o-mini" ]}].
Proof. reflexivity. Qed.

(** The four events of the end-to-end scenario, then success. *)
Example end_to_end_scenario :
  ∃ a,
    messages (page (run sampleNumber
      [ FromSession 1 (Event (ev "answer" (JStr "...")));
        FromSession 1 (Event (ev "sql_query" (JStr "SELECT ...")));
        FromSession 1 (Event (ev "sql_valid" (JBool true)));
        FromSession 1 (Event (ev "parsed_question"
          (JObj {[ "relevant_tables" :=
                   JArr [JObj {[ "table_name" := JStr "orders" ]}] ]})));
        FromSession 1 Succeeded ]
      (step sampleNumber (User Asked) sampleApp)))
    = [user_question "Provide summary of test case"; ai_answer a]
    ∧ a !! "sql_valid" = Some (JBool true)
    ∧ a !! "parsed_question"
      = Some (JObj {[ "relevant_tables" :=
                      JArr [JObj {[ "table_name" := JStr "orders" ]}] ]})
    ∧ a !! "model_used" = Some (JStr "gpt-4o-mini")
    ∧ a !! "formatted_data_for_visualization" = None.
Proof. eexists. split; [vm_compute; reflexivity|]. by vm_compute. Qed.

(** An empty array is truthy and replaces earlier chart data; an empty
    string is not and does not replace an earlier answer. *)
Example empty_array_overwrites :
  ∃ a, foldAnswer [ JObj (<["answer" := JStr "a"]>
                          {[ "formatted_data_for_visualization" := JArr [JNum 1] ]});
                    JObj (<["answer" := JStr ""]>
                          {[ "formatted_data_for_visualization" := JArr [] ]}) ]
       = Normal a
    ∧ a !! "answer" = Some (JStr "a")
    ∧ a !! "formatted_data_for_visualization" = Some (JArr []).
Proof. eexists. split; [vm_compute; reflexivity|]. by vm_compute. Qed.

(** The catalog throws, the fallback comes in, the default is selected. *)
Example fallback_then_default :
  selectorStep SelectDataset.fallbackModels (CatalogLoad FetchRejected)
    (mkSelector JUndefined (JArr []))
  = mkSelector (JStr "gpt-4o-mini") SelectDataset.fallbackModels.
Proof. reflexivity. Qed.

(** The file-upload notice opens an empty conversation of a spreadsheet
    source and is not added to one that has begun. *)
Example upload_notice_only_when_empty :
  let sets := JArr [JObj (<["id" := JNum 7]> (<["type" := JStr "spreadsheet"]>
                          (<["name" := JStr "sales.csv"]>
                          {[ "table_name" := JStr "sales" ]})))] in
  let routed := Routed (Some "7") None (JNum 0) in
  let p := setDataSets sets samplePage in
  length (messages (act sampleNumber routed p)) = 1%nat
  ∧ messages (act sampleNumber routed (act sampleNumber Asked p))
    = [user_question "Provide summary of test case"].
Proof. split; by vm_compute. Qed.

End Scenarios.

(** ** More on the fold *)

Section FoldAlgebra.

Implicit Types (a : gmap string JsValue) (e v : JsValue) (k : string).
Implicit Types (data : list JsValue).

Lemma foldl_absorbed_onto data a :
  foldl absorbed a data = foldl absorbed ∅ data ∪ a.
Proof.
  revert a. induction data as [|e rest IH]; intros a; simpl.
  - by rewrite (left_id_L ∅ (∪)).
  - rewrite (IH (absorbed a e)), (IH (absorbed ∅ e)), !absorbed_union.
    by rewrite (right_id_L ∅ (∪)), (assoc_L (∪)).
Qed.

(** X1.  The draft of a stream cut in two is the draft of the later part
    laid over the draft of the earlier part (the later part wins where
    both set a field); so delivering the same events a second time
    changes nothing. *)
Theorem fold_of_concatenation data1 data2 :
  Forall (λ e, nullish e = false) data1 →
  Forall (λ e, nullish e = false) data2 →
  ∃ a1 a2, foldAnswer data1 = Normal a1 ∧ foldAnswer data2 = Normal a2
    ∧ foldAnswer (data1 ++ data2) = Normal (a2 ∪ a1)
    ∧ foldAnswer (data1 ++ data1) = foldAnswer data1.
Proof.
  intros H1 H2. exists (foldl absorbed ∅ data1), (foldl absorbed ∅ data2).
  unfold foldAnswer. rewrite !forEach_absorbed by (try apply Forall_app; done).
  repeat split.
  - by rewrite foldl_app, foldl_absorbed_onto.
  - rewrite foldl_app, foldl_absorbed_onto. f_equal. apply map_eq. intros k.
    rewrite lookup_union. by destruct (foldl absorbed ∅ data1 !! k).
Qed.

Lemma fold_of_concatenation_witness :
  ∃ a1 a2, foldAnswer [ev "answer" (JStr "a"); ev "sql_query" (JStr "q")] = Normal a1
    ∧ foldAnswer [ev "answer" (JStr "b")] = Normal a2
    ∧ foldAnswer ([ev "answer" (JStr "a"); ev "sql_query" (JStr "q")]
                  ++ [ev "answer" (JStr "b")]) = Normal (a2 ∪ a1).
Proof.
  destruct (fold_of_concatenation
              [ev "answer" (JStr "a"); ev "sql_query" (JStr "q")]
              [ev "answer" (JStr "b")])
    as (a1 & a2 & H1 & H2 & H12 & _).
  - by repeat constructor.
  - by repeat constructor.
  - exists a1, a2. split; [exact H1|]. split; [exact H2 | exact H12].
Defined.

Lemma absorbed_sameFields a e e' : sameFields e e' → absorbed a e = absorbed a e'.
Proof.
  intros Hsame. apply map_eq. intros k. rewrite !absorbed_lookup.
  case_bool_decide as Hk; [|done]. by rewrite (Hsame k Hk).
Qed.

(** X2.  The fold reads nothing of an event but its six answer fields:
    two streams whose events agree, one by one, on those fields give the
    same draft, whatever else the events hold and whatever their shape. *)
Theorem fold_reads_answer_fields_only data data' :
  Forall (λ e, nullish e = false) data →
  Forall (λ e, nullish e = false) data' →
  Forall2 sameFields data data' →
  foldAnswer data = foldAnswer data'.
Proof.
  intros H1 H2 Hsame. unfold foldAnswer. rewrite !forEach_absorbed by done.
  f_equal. generalize (∅ : gmap string JsValue).
  induction Hsame as [|e e' rest rest' He _ IH]; intros a; [done|].
  apply Forall_cons in H1 as [_ H1]. apply Forall_cons in H2 as [_ H2].
  simpl. rewrite (absorbed_sameFields a e e' He). by apply IH.
Qed.

Lemma fold_reads_answer_fields_only_witness :
  foldAnswer [JObj (<["stage" := JStr "sql"]> {[ "answer" := JStr "a" ]}); JStr "noise"]
  = foldAnswer [ev "answer" (JStr "a"); JObj ∅].
Proof.
  apply fold_reads_answer_fields_only.
  - by repeat constructor.
  - by repeat constructor.
  - repeat constructor; intros k Hk;
      repeat (apply elem_of_cons in Hk as [->|Hk]; [reflexivity|]);
      by apply elem_of_nil in Hk.
Defined.

(** X3.  A completed stream with a [null] or [undefined] event anywhere
    in it appends no answer at all: the fields the other events carried
    are lost with it and the page stays as it was. *)
Theorem null_event_appends_nothing data p :
  Exists (λ e, nullish e = true) data →
  onSuccess (selectedModel p) data (messages p) = Throw TypeError
  ∧ handleSuccess data p = p.
Proof.
  intros Hex. unfold handleSuccess, handleSuccessOf, onSuccess.
  by rewrite foldAnswer_nullish_throws.
Qed.

Lemma null_event_appends_nothing_witness :
  handleSuccess [ev "answer" (JStr "a"); JNull] samplePage = samplePage.
Proof.
  apply (null_event_appends_nothing [ev "answer" (JStr "a"); JNull] samplePage).
  apply Exists_cons_tl, Exists_cons_hd. reflexivity.
Defined.

End FoldAlgebra.

(** ** More on the page: the data-source effect and the request *)

Section PageEffect.

Context (Number : string → JsValue).
Implicit Types (p : Page) (now : JsValue) (sets : list JsValue).

Lemma arrayFilter_records (f : JsValue → bool) (g : JsValue → Completion bool) sets :
  (∀ x, nullish x = false → g x = Normal (f x)) →
  Forall (λ x, nullish x = false) sets →
  arrayFilter g sets = Normal (List.filter f sets).
Proof.
  intros Hg. induction 1 as [|x rest Hx _ IH]; simpl; [done|].
  rewrite (Hg x Hx), IH. simpl. by destruct (f x).
Qed.

Lemma arrayFilter_nullish (g : JsValue → Completion bool) sets :
  (∀ x, nullish x = true → g x = Throw TypeError) →
  (∀ x, nullish x = false → ∃ b, g x = Normal b) →
  Exists (λ x, nullish x = true) sets →
  arrayFilter g sets = Throw TypeError.
Proof.
  intros Hbad Hok. induction sets as [|x rest IH]; intros Hex.
  - by apply Exists_nil in Hex.
  - simpl. destruct (nullish x) eqn:Hx.
    + by rewrite (Hbad x Hx).
    + destruct (Hok x Hx) as [b ->]. simpl.
      apply Exists_cons in Hex as [Hex|Hex]; [congruence|].
      by rewrite (IH Hex).
Qed.

Lemma filter_head_find {A} (f : A → bool) (l : list A) :
  head (List.filter f l) = List.find f l.
Proof. induction l as [|x l IH]; simpl; [done|]. by destruct (f x). Qed.

Lemma idOf_records s x :
  nullish x = false →
  (id ← getProp x "id"; Normal (strictEqPrim id (numberOfParam Number (Some s))))
  = Normal (strictEqPrim (readProp x "id") (Number s)).
Proof. intros Hx. by rewrite getProp_readProp. Qed.

(** X4.  With a data source on the route and the stored data sets a list
    of records, the effect takes the first data set in store order whose
    id equals the number of the route: the tables become the one-element
    list of its table name (or of the empty string) and the data-set type
    becomes its type.  When none has that id the effect changes nothing,
    and the type set before stays. *)
Theorem effect_takes_first_matching_dataset now p s sets :
  data_source_id p = Some s → s ≠ "" →
  dataSets p = JArr sets →
  Forall (λ x, nullish x = false) sets →
  (∀ d, List.find (λ x, strictEqPrim (readProp x "id") (Number s)) sets = Some d →
        truthy d = true →
        tables (runEffect Number now p)
        = JArr [jsOr (readProp d "table_name") (JStr "")]
        ∧ datasetType (runEffect Number now p) = readProp d "type")
  ∧ (List.find (λ x, strictEqPrim (readProp x "id") (Number s)) sets = None →
     runEffect Number now p = p).
Proof.
  intros Hs Hne Hsets Hrec. unfold runEffect, dataSourceEffect.
  rewrite Hs, Hsets. simpl.
  assert (negb (String.eqb s "") = true) as ->.
  { apply negb_true_iff. by apply String.eqb_neq. }
  simpl.
  rewrite (arrayFilter_records
             (λ x, strictEqPrim (readProp x "id") (Number s))) by
    (try done; intros x Hx; by rewrite getProp_readProp).
  simpl. rewrite <- filter_head_find.
  destruct (List.filter _ sets) as [|d0 rest]; simpl.
  { split; [by intros d [=] | done]. }
  split; [|by intros [=]].
  intros d [= <-] Ht. rewrite Ht.
  assert (nullish d0 = false) as Hd by (by destruct d0).
  rewrite !getProp_readProp by done. simpl.
  destruct (_ && _); simpl.
  - unfold fileUploadOf. rewrite !getProp_readProp by done. by simpl.
  - done.
Qed.

(** X5.  With a data source on the route, stored data sets that are truthy
    but no list, or a list with a [null] or [undefined] entry anywhere in
    it (even after a data set of the right id), make the effect throw
    before it sets anything: tables, type and messages stay as they
    were. *)
Theorem effect_throws_on_bad_datasets now p s :
  data_source_id p = Some s → s ≠ "" →
  truthy (dataSets p) = true →
  (∀ sets, dataSets p = JArr sets → Exists (λ x, nullish x = true) sets) →
  dataSourceEffect Number now p = Throw TypeError
  ∧ runEffect Number now p = p.
Proof.
  intros Hs Hne Ht Hbad.
  assert (dataSourceEffect Number now p = Throw TypeError) as Hthrow.
  { unfold dataSourceEffect. rewrite Hs, Ht. simpl.
    assert (negb (String.eqb s "") = true) as ->.
    { apply negb_true_iff. by apply String.eqb_neq. }
    simpl. destruct (dataSets p) as [| | | | | |sets|] eqn:Hsets; try done.
    rewrite arrayFilter_nullish; [done| | |by apply Hbad].
    - intros x Hx. by destruct x.
    - intros x Hx. rewrite getProp_readProp by done. by eexists. }
  split; [done|]. unfold runEffect. by rewrite Hthrow.
Qed.

(** What an effect that ran to its end did to the messages: nothing, or
    it opened the empty conversation with one notice of size 0 and no row
    count. *)
Lemma dataSourceEffect_upload now p p' :
  dataSourceEffect Number now p = Normal p' →
  messages p' = messages p
  ∨ messages p = [] ∧ ∃ upload,
      messages p' = [file_upload upload]
      ∧ upload !! "fileSize" = Some (JNum 0)
      ∧ upload !! "rowsProcessed" = None.
Proof.
  unfold dataSourceEffect.
  destruct (_ && _); [|intros [= <-]; by left].
  destruct (dataSets p); try done.
  destruct (arrayFilter _ _) as [[|dataSet rest]|]; simpl; try done.
  { intros [= <-]. by left. }
  destruct (truthy dataSet) eqn:Ht; [|intros [= <-]; by left].
  assert (nullish dataSet = false) as Hn by (by destruct dataSet).
  rewrite !getProp_readProp by done. simpl.
  case_bool_decide as Hlen; simpl.
  - destruct (strictEqStr _ _); simpl.
    + unfold fileUploadOf. rewrite !getProp_readProp by done. simpl.
      intros [= <-]. right. split; [by apply length_zero_iff_nil|].
      eexists. split; [reflexivity|]. by simplify_map_eq.
    + intros [= <-]. by left.
  - intros [= <-]. by left.
Qed.

Lemma perform_noLaterUpload a p :
  noLaterUpload (messages p) → noLaterUpload (messages (perform Number a p)).
Proof.
  unfold noLaterUpload. intros Hinv.
  assert (∀ m, isUpload m = false →
            Forall (λ m, isUpload m = false) (tail (messages p ++ [m]))) as Happ.
  { intros m Hm. destruct (messages p) as [|m0 ms]; simpl in *; [done|].
    apply Forall_app. by repeat constructor. }
  assert (∀ now q, messages q = messages p →
            Forall (λ m, isUpload m = false) (tail (messages (runEffect Number now q))))
    as Heff.
  { intros now q Hq. unfold runEffect.
    destruct (dataSourceEffect _ _ _) as [p'|] eqn:Heq; [|by rewrite Hq].
    apply dataSourceEffect_upload in Heq as [->|(_ & upload & -> & _)];
      [by rewrite Hq | done]. }
  destruct a as [[q| |m|d now|dsid cid now]|[data|data]]; simpl; try done.
  - by apply Happ.
  - by apply Heff.
  - by apply Heff.
  - destruct (handleSuccess_messages data p) as [->|(a & _ & ->)]; [done|].
    by apply Happ.
Qed.

(** X6.  A file-upload notice can only open a conversation: over any
    sequence of actions from a page with no messages, no notice ever sits
    after another message, so the conversation holds one notice at
    most. *)
Theorem upload_notice_only_first actions p :
  messages p = [] →
  Forall (λ m, isUpload m = false) (tail (messages (performAll Number actions p)))
  ∧ (length (List.filter isUpload (messages (performAll Number actions p))) ≤ 1)%nat.
Proof.
  intros Hnil.
  assert (noLaterUpload (messages (performAll Number actions p))) as Hinv.
  { assert (noLaterUpload (messages p)) as H0
      by (unfold noLaterUpload; rewrite Hnil; constructor).
    clear Hnil. revert p H0.
    induction actions as [|a rest IH]; intros p H0; simpl; [done|].
    apply IH. by apply perform_noLaterUpload. }
  split; [done|]. unfold noLaterUpload in Hinv.
  destruct (messages (performAll Number actions p)) as [|m ms]; simpl in *; [lia|].
  assert (List.filter isUpload ms = []) as ->.
  { clear -Hinv. induction Hinv as [|x l Hx _ IH]; simpl; [done|]. by rewrite Hx. }
  destruct (isUpload m); simpl; lia.
Qed.

End PageEffect.

Lemma effect_takes_first_matching_dataset_witness :
  let d := JObj (<["id" := JNum 7]> {[ "type" := JStr "url" ]}) in
  let sets := [JObj {[ "id" := JNum 3 ]}; d;
               JObj (<["id" := JNum 7]> {[ "table_name" := JStr "late" ]})] in
  let p := setParams (Some "7") None (setDataSets (JArr sets) samplePage) in
  tables (runEffect sampleNumber (JNum 0) p)
  = JArr [jsOr (readProp d "table_name") (JStr "")]
  ∧ datasetType (runEffect sampleNumber (JNum 0) p) = readProp d "type".
Proof.
  intros d sets p.
  destruct (effect_takes_first_matching_dataset sampleNumber (JNum 0) p "7" sets)
    as [Hfound _].
  - reflexivity.
  - discriminate.
  - reflexivity.
  - by repeat constructor.
  - apply (Hfound d); reflexivity.
Defined.

Lemma effect_throws_on_bad_datasets_witness :
  runEffect sampleNumber (JNum 0)
    (setParams (Some "7") None
       (setDataSets (JArr [JObj {[ "id" := JNum 7 ]}; JNull]) samplePage))
  = setParams (Some "7") None
      (setDataSets (JArr [JObj {[ "id" := JNum 7 ]}; JNull]) samplePage).
Proof.
  apply (effect_throws_on_bad_datasets sampleNumber (JNum 0)
           (setParams (Some "7") None
              (setDataSets (JArr [JObj {[ "id" := JNum 7 ]}; JNull]) samplePage))
           "7").
  - reflexivity.
  - discriminate.
  - reflexivity.
  - intros sets [= <-]. apply Exists_cons_tl, Exists_cons_hd. reflexivity.
Defined.

Lemma upload_notice_only_first_witness :
  let sets := JArr [JObj (<["id" := JNum 7]> {[ "type" := JStr "spreadsheet" ]})] in
  let actions :=
    [ByUser (Routed (Some "7") None (JNum 0));
     ByUser (DataSetsStored sets (JNum 1));
     ByUser Asked;
     ByUser (DataSetsStored sets (JNum 2))] in
  (length (List.filter isUpload (messages (performAll sampleNumber actions samplePage)))
   ≤ 1)%nat.
Proof.
  intros sets actions.
  apply (upload_notice_only_first sampleNumber actions samplePage). reflexivity.
Defined.

(** ** More on the request *)

Section RequestExtras.

Context (Number : string → JsValue).
Implicit Types (p : Page) (now : JsValue).

(** X7.  On a route with a data source whose data sets are not in the
    store yet, the effect files the page under [direct_chat]; a question
    asked then goes out typed [direct_chat] and still carries the
    [dataset_id] of the route and the tables of the store. *)
Theorem direct_chat_type_with_dataset now p s :
  data_source_id p = Some s → s ≠ "" →
  truthy (dataSets p) = false →
  datasetType (runEffect Number now p) = JStr "direct_chat"
  ∧ (askQuestion Number (runEffect Number now p)).2 !! "type"
    = Some (JStr "direct_chat")
  ∧ (askQuestion Number (runEffect Number now p)).2 !! "dataset_id"
    = Some (Number s)
  ∧ (askQuestion Number (runEffect Number now p)).2 !! "selected_tables"
    = Some (tables p).
Proof.
  intros Hs Hne Hf.
  assert (runEffect Number now p = setDatasetType (JStr "direct_chat") p) as ->.
  { unfold runEffect, dataSourceEffect. by rewrite Hf, andb_false_r. }
  assert (negb (String.eqb s "") = true) as Ht.
  { apply negb_true_iff. by apply String.eqb_neq. }
  simpl. unfold requestBody. simpl. rewrite Hs. simpl. rewrite Ht.
  destruct (truthy (paramValue (conversation_id p))); by simplify_map_eq.
Qed.

(** X8.  The two versions of the page build the same request whenever the
    route has a data source and a conversation and the data-set type is
    set; without a data source the earlier version still sends all six
    fields, with [NaN] for the data-set id. *)
Theorem request_versions_agree p s c :
  data_source_id p = Some s → s ≠ "" →
  conversation_id p = Some c → c ≠ "" →
  truthy (datasetType p) = true →
  ChatLegacy.requestBody Number p = requestBody Number p
  ∧ ∀ q, data_source_id q = None →
         ChatLegacy.requestBody Number q !! "dataset_id" = Some JNaN
         ∧ requestBody Number q !! "dataset_id" = None.
Proof.
  intros Hs Hns Hc Hnc Ht. split.
  - unfold ChatLegacy.requestBody, requestBody. rewrite Hs, Hc. simpl.
    rewrite (proj2 (String.eqb_neq s "") Hns), (proj2 (String.eqb_neq c "") Hnc).
    simpl. unfold jsOr. rewrite Ht.
    apply map_eq. intros k.
    repeat (rewrite lookup_insert; case_decide; [done|]). done.
  - intros q Hq. unfold ChatLegacy.requestBody, requestBody. rewrite Hq. simpl.
    destruct (truthy (paramValue (conversation_id q))); by simplify_map_eq.
Qed.

End RequestExtras.

Lemma direct_chat_type_with_dataset_witness :
  (askQuestion sampleNumber
     (runEffect sampleNumber (JNum 0) (setParams (Some "7") None samplePage))).2
    !! "type" = Some (JStr "direct_chat")
  ∧ (askQuestion sampleNumber
       (runEffect sampleNumber (JNum 0) (setParams (Some "7") None samplePage))).2
      !! "dataset_id" = Some (sampleNumber "7").
Proof.
  destruct (direct_chat_type_with_dataset sampleNumber (JNum 0)
              (setParams (Some "7") None samplePage) "7")
    as (_ & Htype & Hid & _).
  - reflexivity.
  - discriminate.
  - reflexivity.
  - split; [exact Htype | exact Hid].
Defined.

Lemma request_versions_agree_witness :
  ChatLegacy.requestBody sampleNumber
    (setDatasetType (JStr "url") (setParams (Some "7") (Some "7") samplePage))
  = requestBody sampleNumber
      (setDatasetType (JStr "url") (setParams (Some "7") (Some "7") samplePage)).
Proof.
  destruct (request_versions_agree sampleNumber
              (setDatasetType (JStr "url") (setParams (Some "7") (Some "7") samplePage))
              "7" "7")
    as [Heq _].
  - reflexivity.
  - discriminate.
  - reflexivity.
  - discriminate.
  - reflexivity.
  - exact Heq.
Defined.

(** ** More on the model catalog *)

Section CatalogExtras.

Implicit Types (fallback selected avail m : JsValue) (models : list JsValue).
Implicit Types (st : Selector) (evs : list SelectorEvent).

Lemma getPropOpt_readProp v k : getPropOpt v k = Normal (readProp v k).
Proof. by destruct v. Qed.

Lemma tryFetch_body d avail :
  nullish d = false →
  tryFetch (Body d) avail
  = Normal (if strictEqNum (readProp d "status_code") 200
            then if truthy (readProp (readProp d "data") "models")
                 then readProp (readProp d "data") "models"
                 else avail
            else avail).
Proof.
  intros Hd. unfold tryFetch. rewrite !getProp_readProp by done. simpl.
  destruct (strictEqNum _ _); [|done].
  rewrite getPropOpt_readProp. simpl. by destruct (truthy _).
Qed.

(** X9.  The catalog load throws, and puts the fallback list in place,
    exactly when the fetch is rejected, the body is no JSON, or the body
    is [null] or [undefined]; any other body never throws and leaves the
    list either as it was or replaced by the truthy [data.models] of a
    body with [status_code] 200. *)
Theorem catalog_load_outcomes fallback outcome avail :
  ((∃ err, tryFetch outcome avail = Throw err)
   ↔ outcome = FetchRejected ∨ outcome = BodyNotJson
     ∨ ∃ d, outcome = Body d ∧ nullish d = true)
  ∧ ((∃ err, tryFetch outcome avail = Throw err) →
     fetchModelsWith fallback outcome avail = fallback)
  ∧ (∀ d, outcome = Body d → nullish d = false →
     fetchModelsWith fallback outcome avail = avail
     ∨ (strictEqNum (readProp d "status_code") 200 = true
        ∧ truthy (fetchModelsWith fallback outcome avail) = true
        ∧ fetchModelsWith fallback outcome avail
          = readProp (readProp d "data") "models")).
Proof.
  split; [|split].
  - split.
    + intros [err Herr]. destruct outcome as [| |d]; [by left | by right; left|].
      right; right. exists d. split; [done|].
      destruct (nullish d) eqn:Hd; [done|].
      by rewrite tryFetch_body in Herr.
    + intros [->|[->|(d & -> & Hd)]]; [by eexists | by eexists|].
      exists TypeError. by destruct d.
  - intros [err Herr]. unfold fetchModelsWith. by rewrite Herr.
  - intros d -> Hd. unfold fetchModelsWith. rewrite tryFetch_body by done.
    destruct (strictEqNum _ _); [|by left].
    destruct (truthy _) eqn:Ht; [by right | by left].
Qed.

Lemma catalog_load_outcomes_witness :
  fetchModelsWith SelectDataset.fallbackModels (Body JNull) (JArr [])
  = SelectDataset.fallbackModels.
Proof.
  destruct (catalog_load_outcomes SelectDataset.fallbackModels (Body JNull) (JArr []))
    as (Hiff & Hfallback & _).
  apply Hfallback. apply Hiff. right; right. by exists JNull.
Defined.

(** X10.  A successful response is stored as it comes: any truthy
    [data.models] replaces the list without a look at its shape.  When it
    is an empty list, or no list at all, the selector is left with it and
    without fallback, and the selection stays what it was. *)
Theorem successful_load_is_not_validated fallback stored st :
  truthy stored = true →
  availableModels (selectorStep fallback (CatalogLoad (Body (okBody stored))) st)
  = stored
  ∧ ((∀ xs, stored = JArr xs → xs = []) →
     model (selectorStep fallback (CatalogLoad (Body (okBody stored))) st) = model st).
Proof.
  intros Ht.
  assert (fetchModelsWith fallback (Body (okBody stored)) (availableModels st) = stored)
    as Hload.
  { unfold fetchModelsWith. rewrite tryFetch_body by done.
    assert (readProp (okBody stored) "status_code" = JNum 200) as ->.
    { unfold readProp, okBody. simpl. by simplify_map_eq. }
    assert (readProp (readProp (okBody stored) "data") "models" = stored) as ->.
    { unfold readProp, okBody. simpl. by simplify_map_eq. }
    simpl. by rewrite Ht. }
  unfold selectorStep. cbn [model availableModels]. rewrite Hload.
  split; [done|]. intros Hshape. unfold defaultModelEffect.
  destruct (truthy (model st)); simpl; [done|].
  destruct stored as [| | | | | |xs|]; try done.
  by rewrite (Hshape xs eq_refl).
Qed.

Lemma successful_load_is_not_validated_witness :
  selectorStep ModelSelector.fallbackModels (CatalogLoad (Body (okBody (JArr []))))
    (mkSelector JUndefined ModelSelector.fallbackModels)
  = mkSelector JUndefined (JArr []).
Proof.
  destruct (successful_load_is_not_validated ModelSelector.fallbackModels (JArr [])
              (mkSelector JUndefined ModelSelector.fallbackModels) eq_refl)
    as [Hlist Hmodel].
  specialize (Hmodel ltac:(by intros xs [= <-])).
  destruct (selectorStep _ _ _) as [m l]. simpl in *. by subst.
Defined.

Lemma selectorStep_model fallback ev st :
  model (selectorStep fallback ev st) = JStr "gpt-4o-mini"
  ∨ match ev with
    | CatalogLoad _ => model (selectorStep fallback ev st) = model st
    | UserSelect v => model (selectorStep fallback ev st) = JStr v
    end.
Proof.
  unfold selectorStep. destruct ev as [outcome|v]; cbn [model availableModels].
  - destruct (defaultModelEffect_cases (model st)
                (fetchModelsWith fallback outcome (availableModels st)))
      as [->| ->]; [by right | by left].
  - destruct (defaultModelEffect_cases (JStr v) (availableModels st))
      as [->| ->]; [by right | by left].
Qed.

(** X11.  Whatever the catalog loads return and whatever the user picks,
    the selected model is at every moment the one the page started with,
    a value the user picked, or [gpt-4o-mini]: the effect never selects
    anything else. *)
Theorem selection_is_initial_chosen_or_default fallback evs st :
  model (selectorRun fallback evs st)
  ∈ model st :: JStr "gpt-4o-mini" :: userChoices evs.
Proof.
  revert st. induction evs as [|ev rest IH]; intros st.
  - apply list_elem_of_here.
  - change (selectorRun fallback (ev :: rest) st)
      with (selectorRun fallback rest (selectorStep fallback ev st)).
    specialize (IH (selectorStep fallback ev st)).
    apply elem_of_cons in IH as [IH|IH].
    + rewrite IH. destruct (selectorStep_model fallback ev st) as [->|Hstep].
      * apply list_elem_of_further, list_elem_of_here.
      * destruct ev as [outcome|v]; rewrite Hstep.
        -- apply list_elem_of_here.
        -- simpl. do 2 apply list_elem_of_further. apply list_elem_of_here.
    + apply list_elem_of_further.
      apply elem_of_cons in IH as [->|IH]; [apply list_elem_of_here|].
      apply list_elem_of_further. destruct ev; simpl; [done|].
      by apply list_elem_of_further.
Qed.

(** X12.  In either selector a load that throws while nothing is selected
    ends with that selector's fallback list in place and [gpt-4o-mini]
    selected. *)
Theorem failed_load_selects_default outcome st err :
  tryFetch outcome (availableModels st) = Throw err →
  truthy (model st) = false →
  selectorStep ModelSelector.fallbackModels (CatalogLoad outcome) st
  = mkSelector (JStr "gpt-4o-mini") ModelSelector.fallbackModels
  ∧ selectorStep SelectDataset.fallbackModels (CatalogLoad outcome) st
    = mkSelector (JStr "gpt-4o-mini") SelectDataset.fallbackModels.
Proof.
  intros Hthrow Hf. unfold selectorStep, fetchModelsWith.
  cbn [model availableModels]. rewrite Hthrow.
  unfold defaultModelEffect. rewrite Hf. by split.
Qed.

Lemma failed_load_selects_default_witness :
  selectorStep ModelSelector.fallbackModels (CatalogLoad BodyNotJson)
    (mkSelector (JStr "") (JArr []))
  = mkSelector (JStr "gpt-4o-mini") ModelSelector.fallbackModels.
Proof.
  destruct (failed_load_selects_default BodyNotJson (mkSelector (JStr "") (JArr []))
              SyntaxError eq_refl eq_refl) as [H _].
  exact H.
Defined.

Lemma findDefault_app_nullish models x rest :
  Forall (λ m, nullish m = false ∧ isDefaultModel m = false) models →
  nullish x = true →
  findDefault (models ++ x :: rest) = Throw TypeError.
Proof.
  intros Hpre Hx. unfold findDefault.
  induction Hpre as [|m pre [Hm Hd] _ IH]; simpl.
  - by destruct x.
  - rewrite getProp_readProp by done. simpl.
    unfold isDefaultModel in Hd. by rewrite Hd.
Qed.

(** X13.  A [null] or [undefined] entry of the list ahead of every
    [gpt-4o-mini] entry keeps the effect from selecting the default:
    reading its name throws and the selection stays what it was. *)
Theorem null_entry_blocks_default selected models x rest :
  Forall (λ m, nullish m = false ∧ isDefaultModel m = false) models →
  nullish x = true →
  defaultModelEffect selected (JArr (models ++ x :: rest)) = selected.
Proof.
  intros Hpre Hx. unfold defaultModelEffect.
  destruct (truthy selected); simpl; [done|].
  case_bool_decide; [|done]. by rewrite findDefault_app_nullish.
Qed.

Lemma null_entry_blocks_default_witness :
  defaultModelEffect JUndefined
    (JArr ([modelInfo "gpt-4o" "GPT-4o" "Best all-around" "openai" "balanced"]
           ++ JNull
           :: [modelInfo "gpt-4o-mini" "GPT-4o Mini" "Fast and cost-effective"
                 "openai" "fast"]))
  = JUndefined.
Proof.
  apply null_entry_blocks_default.
  - by repeat constructor.
  - reflexivity.
Defined.

End CatalogExtras.

(** ** The two versions of the data-source effect *)

Section EffectVersions.

Context (Number : string → JsValue).
Implicit Types (p : Page) (now : JsValue) (sets : list JsValue).

(** X28.  The earlier version of the effect and the current one leave the
    same tables and the same data-set type when the route has a data
    source and the store holds a list of truthy data sets; the earlier
    one never writes a message.  They part when the data sets are not
    loaded: the earlier one does nothing, the current one files the page
    under [direct_chat]. *)
Theorem effect_versions_agree now p s sets :
  data_source_id p = Some s → s ≠ "" →
  dataSets p = JArr sets →
  Forall (λ x, truthy x = true) sets →
  (∃ q, ChatLegacyEffect.dataSourceEffect Number p = Normal q
     ∧ tables q = tables (runEffect Number now p)
     ∧ datasetType q = datasetType (runEffect Number now p)
     ∧ messages q = messages p)
  ∧ (∀ p', nullish (dataSets p') = true →
       ChatLegacyEffect.dataSourceEffect Number p' = Normal p'
       ∧ datasetType (runEffect Number now p') = JStr "direct_chat").
Proof.
  intros Hs Hne Hsets Htruthy. split.
  - assert (Forall (λ x, nullish x = false) sets) as Hrec.
    { eapply Forall_impl; [exact Htruthy|]. intros x Hx. by destruct x. }
    unfold ChatLegacyEffect.dataSourceEffect, ChatLegacyEffect.filteredDataSet.
    unfold runEffect, dataSourceEffect.
    rewrite Hs, Hsets. simpl.
    assert (negb (String.eqb s "") = true) as ->.
    { apply negb_true_iff. by apply String.eqb_neq. }
    simpl.
    rewrite (arrayFilter_records
               (λ x, strictEqPrim (readProp x "id") (Number s))) by
      (try done; intros x Hx; by rewrite getProp_readProp).
    simpl.
    assert (Forall (λ x, truthy x = true)
              (List.filter (λ x, strictEqPrim (readProp x "id") (Number s)) sets))
      as Hfound.
    { apply Forall_forall. intros x Hx. apply list_elem_of_In, filter_In in Hx.
      destruct Hx as [Hx _]. apply list_elem_of_In in Hx.
      by apply (proj1 (Forall_forall _ _) Htruthy). }
    destruct (List.filter _ sets) as [|d rest]; simpl; [by eexists|].
    apply Forall_cons in Hfound as [Hd _]. rewrite Hd.
    assert (nullish d = false) as Hn by (by destruct d).
    rewrite !getPropOpt_readProp, !getProp_readProp by done. simpl.
    destruct (_ && _); simpl.
    + unfold fileUploadOf. rewrite !getProp_readProp by done. simpl. by eexists.
    + by eexists.
  - intros p' Hnull. unfold ChatLegacyEffect.dataSourceEffect,
      ChatLegacyEffect.filteredDataSet, runEffect, dataSourceEffect.
    destruct (dataSets p'); try discriminate Hnull; simpl;
      by rewrite andb_false_r.
Qed.

End EffectVersions.

Lemma effect_versions_agree_witness :
  let sets := [JObj {[ "id" := JNum 3 ]};
               JObj (<["id" := JNum 7]> {[ "type" := JStr "spreadsheet" ]})] in
  let p := setParams (Some "7") None (setDataSets (JArr sets) samplePage) in
  ∃ q, ChatLegacyEffect.dataSourceEffect sampleNumber p = Normal q
     ∧ tables q = tables (runEffect sampleNumber (JNum 0) p)
     ∧ datasetType q = datasetType (runEffect sampleNumber (JNum 0) p)
     ∧ messages q = messages p.
Proof.
  intros sets p.
  destruct (effect_versions_agree sampleNumber (JNum 0) p "7" sets) as [Hsame _].
  - reflexivity.
  - discriminate.
  - reflexivity.
  - by repeat constructor.
  - exact Hsame.
Defined.

(** ** The options the selectors offer *)

Section OptionGroups.

Import Options.
Implicit Types (models : list JsValue) (m : JsValue).

Lemma platformOptions_records platform models :
  Forall (λ m, nullish m = false) models →
  platformOptions platform models = Normal (List.filter (platformIs platform) models).
Proof.
  intros Hrec. unfold platformOptions. apply arrayFilter_records; [|done].
  intros x Hx. by rewrite getProp_readProp.
Qed.

Lemma platformIs_exclusive m :
  platformIs "openai" m = true → platformIs "groq" m = false.
Proof.
  unfold platformIs. intros H. apply strictEqStr_true in H. by rewrite H.
Qed.

(** X14.  For a catalog of records both selectors offer the same options:
    the entries of platform [openai] in catalog order, then those of
    platform [groq].  An entry of any other platform, or of none, is in
    the list and yet offered by neither; no entry is offered in both
    groups; and [ModelSelector.tsx] leaves the Groq group out exactly
    when the catalog has no [groq] entry. *)
Theorem selectors_offer_openai_then_groq models :
  Forall (λ m, nullish m = false) models →
  ∃ g1 g2,
    modelSelectorGroups (JArr models) = Normal g1
    ∧ selectDatasetGroups (JArr models) = Normal g2
    ∧ offered g1 = offered g2
    ∧ offered g1 = List.filter (platformIs "openai") models
                   ++ List.filter (platformIs "groq") models
    ∧ (∀ m, m ∈ offered g1
            ↔ m ∈ models ∧ (platformIs "openai" m = true ∨ platformIs "groq" m = true))
    ∧ (∀ m, m ∈ openaiGroup g1 → m ∉ default [] (groqGroup g1))
    ∧ (groqGroup g1 = None ↔ hasPlatform "groq" (JArr models) = false).
Proof.
  intros Hrec. unfold modelSelectorGroups, selectDatasetGroups, hasPlatform.
  fold (platformOptions "groq" models).
  rewrite !platformOptions_records by done. simpl.
  set (openai := List.filter (platformIs "openai") models).
  set (groq := List.filter (platformIs "groq") models).
  assert (offered (mkGroups openai
                     (if bool_decide (0 < length groq)%nat then Some groq else None))
          = openai ++ groq) as Hoff.
  { unfold offered. simpl. case_bool_decide as Hlen; [done|].
    destruct groq; [done | simpl in Hlen; lia]. }
  eexists _, _. split; [reflexivity|]. split; [reflexivity|].
  rewrite Hoff. split; [done|]. split; [done|]. split; [|split].
  - intros m. rewrite elem_of_app. unfold openai, groq.
    rewrite !list_elem_of_In, !filter_In. tauto.
  - simpl. intros m Hm Hg. unfold openai in Hm.
    apply list_elem_of_In, filter_In in Hm as [_ Hm].
    assert (m ∈ groq) as Hg'.
    { case_bool_decide; [done | by apply elem_of_nil in Hg]. }
    apply list_elem_of_In, filter_In in Hg' as [_ Hg'].
    by rewrite (platformIs_exclusive m Hm) in Hg'.
  - simpl. case_bool_decide as Hlen; destruct groq; simpl in *; try done; lia.
Qed.

Lemma selectors_offer_openai_then_groq_witness :
  ∃ g1, Options.modelSelectorGroups ModelSelector.fallbackModels = Normal g1
    ∧ Options.groqGroup g1 = None.
Proof.
  destruct (selectors_offer_openai_then_groq
              [ modelInfo "gpt-4o-mini" "GPT-4o Mini" "Fast and cost-effective"
                  "openai" "fast";
                modelInfo "gpt-4o" "GPT-4o" "Best all-around" "openai" "balanced" ])
    as (g1 & g2 & H1 & _ & _ & _ & _ & _ & Hgroq).
  - by repeat constructor.
  - exists g1. split; [exact H1|]. apply Hgroq. reflexivity.
Defined.

End OptionGroups.

(** ** The reply card *)

Section ReplyCard.

Import AnswerCard.
Context (join : list JsValue → Completion JsValue).
Implicit Types (a : gmap string JsValue) (p : Page) (data : list JsValue).

Lemma assembled_field data a k v :
  Forall (λ e, nullish e = false) data →
  foldAnswer data = Normal a →
  k ∈ answerFields →
  field (<["model_used" := v]> a) k
  = default JUndefined (lastWhere accepts k data).
Proof.
  intros Hdata Ha Hk.
  destruct (foldAnswer_lookup data k Hdata) as (a' & Ha' & Hlook).
  rewrite Ha in Ha'. injection Ha' as <-.
  rewrite bool_decide_eq_true_2 in Hlook by done.
  unfold field. rewrite lookup_insert_ne, Hlook; [done|].
  intros <-. unfold answerFields in Hk.
  repeat (apply elem_of_cons in Hk as [Hk|Hk]; [discriminate Hk|]).
  by apply elem_of_nil in Hk.
Qed.

(** X15.  The answer of a stream that delivered no [sql_query] shows its
    summary and at most a chart: the card is built without throwing,
    whatever the other fields hold, and the details (the SQL, its
    validation, the tables and the model stamped on the answer) are not
    part of it. *)
Theorem answer_without_sql_query_hides_model data p :
  Forall (λ e, nullish e = false) data →
  lastWhere accepts "sql_query" data = None →
  ∃ a c, messages (handleSuccess data p) = messages p ++ [ai_answer a]
    ∧ a !! "model_used" = Some (selectedModel p)
    ∧ card join a = Normal c
    ∧ details c = Value JUndefined.
Proof.
  intros Hdata Hnone.
  destruct (onSuccess_appends (selectedModel p) data (messages p) Hdata)
    as (a & Ha & Hs).
  exists (<["model_used" := selectedModel p]> a).
  assert (field (<["model_used" := selectedModel p]> a) "sql_query" = JUndefined)
    as Hsql.
  { rewrite (assembled_field data a "sql_query") by (try done; field_in).
    by rewrite Hnone. }
  eexists. split; [by rewrite (handleSuccess_Normal _ _ _ Hs)|].
  split; [by simplify_map_eq|].
  unfold card. rewrite Hsql. simpl. done.
Qed.

(** X16.  On the card of an assembled answer neither the chart slot nor
    the details slot ever prints a stray [0] or [NaN]: the fold stores
    truthy values only, so each slot holds its element or nothing. *)
Theorem assembled_card_prints_no_stray_number data p a c :
  Forall (λ e, nullish e = false) data →
  messages (handleSuccess data p) = messages p ++ [ai_answer a] →
  card join a = Normal c →
  leaks (chart c) = false ∧ leaks (details c) = false.
Proof.
  intros Hdata Hmsg Hcard.
  destruct (onSuccess_appends (selectedModel p) data (messages p) Hdata)
    as (a0 & Ha0 & Hs).
  rewrite (handleSuccess_Normal _ _ _ Hs) in Hmsg. simpl in Hmsg.
  apply app_inv_head in Hmsg. injection Hmsg as <-.
  assert (∀ k, k ∈ answerFields →
            field (<["model_used" := selectedModel p]> a0) k = JUndefined
            ∨ truthy (field (<["model_used" := selectedModel p]> a0) k) = true
            ∨ k = "sql_valid") as Hfield.
  { intros k Hk. rewrite (assembled_field data a0 k) by done.
    destruct (lastWhere accepts k data) as [v|] eqn:Hlast; [|by left].
    right. apply lastWhere_passes in Hlast. unfold accepts in Hlast.
    destruct (String.eqb_spec k "sql_valid"); [by right | by left]. }
  unfold card in Hcard.
  destruct (Hfield "formatted_data_for_visualization" ltac:(field_in))
    as [Hd|[Hd|?]]; [| |done];
  destruct (Hfield "sql_query" ltac:(field_in)) as [Hq|[Hq|?]]; try done;
    rewrite ?Hq in Hcard; simpl in Hcard;
    try (destruct (detailsOf _ _); simpl in Hcard; [|done]);
    injection Hcard as <-; simpl; unfold jsxAnd; rewrite ?Hd, ?Hq; done.
Qed.

(** X17.  Under a truthy [sql_query], a [parsed_question.relevant_tables]
    that is truthy but no list, or a list with a [null] or [undefined]
    entry, makes building the card throw. *)
Theorem card_throws_on_bad_tables a :
  truthy (field a "sql_query") = true →
  truthy (readProp (field a "parsed_question") "relevant_tables") = true →
  (∀ ts, readProp (field a "parsed_question") "relevant_tables" = JArr ts →
         Exists (λ t, nullish t = true) ts) →
  card join a = Throw TypeError.
Proof.
  intros Hq Ht Hbad. unfold card, detailsOf. rewrite Hq.
  rewrite getPropOpt_readProp. simpl. rewrite Ht.
  destruct (readProp (field a "parsed_question") "relevant_tables")
    as [| | | | | |ts|] eqn:Hrt; try done.
  simpl. specialize (Hbad ts eq_refl).
  assert (arrayMap (λ t, getProp t "table_name") ts = Throw TypeError) as ->; [|done].
  clear -Hbad. induction ts as [|t rest IH]; [by apply Exists_nil in Hbad|].
  simpl. destruct (nullish t) eqn:Hn.
  - by destruct t.
  - rewrite getProp_readProp by done. simpl.
    apply Exists_cons in Hbad as [Hbad|Hbad]; [congruence|].
    by rewrite IH.
Qed.

End ReplyCard.

Lemma answer_without_sql_query_hides_model_witness :
  ∃ a c, messages (handleSuccess [ev "answer" (JStr "hello")] samplePage)
         = messages samplePage ++ [ai_answer a]
    ∧ a !! "model_used" = Some (JStr "gpt-4o-mini")
    ∧ AnswerCard.card sampleJoin a = Normal c
    ∧ AnswerCard.details c = AnswerCard.Value JUndefined.
Proof.
  apply (answer_without_sql_query_hides_model sampleJoin
           [ev "answer" (JStr "hello")] samplePage).
  - by repeat constructor.
  - reflexivity.
Defined.

Lemma assembled_card_prints_no_stray_number_witness :
  let data := [ev "formatted_data_for_visualization" (JNum 0);
               ev "sql_query" (JStr "SELECT 1")] in
  let a := <["model_used" := JStr "gpt-4o-mini"]> {[ "sql_query" := JStr "SELECT 1" ]} in
  messages (handleSuccess data samplePage) = messages samplePage ++ [ai_answer a]
  ∧ ∃ c, AnswerCard.card sampleJoin a = Normal c
      ∧ AnswerCard.leaks (AnswerCard.chart c) = false
      ∧ AnswerCard.leaks (AnswerCard.details c) = false.
Proof.
  intros data a.
  assert (messages (handleSuccess data samplePage)
          = messages samplePage ++ [ai_answer a]) as Hmsg
    by (vm_compute; reflexivity).
  split; [exact Hmsg|].
  destruct (AnswerCard.card sampleJoin a) as [c|err] eqn:Hcard;
    [|vm_compute in Hcard; discriminate Hcard].
  exists c. split; [reflexivity|].
  apply (assembled_card_prints_no_stray_number sampleJoin data samplePage a c).
  - by repeat constructor.
  - exact Hmsg.
  - exact Hcard.
Defined.

Lemma card_throws_on_bad_tables_witness :
  AnswerCard.card sampleJoin
    (<["sql_query" := JStr "SELECT 1"]>
       {[ "parsed_question" := JObj {[ "relevant_tables" := JStr "orders" ]} ]})
  = Throw TypeError.
Proof.
  apply card_throws_on_bad_tables.
  - reflexivity.
  - reflexivity.
  - intros ts Hts. vm_compute in Hts. discriminate Hts.
Defined.

(** ** The file-upload notice *)

Section UploadNotice.

Import FileMessage.
Context (numberToString : Z → Z → string).

Lemma tenths_bounds num den :
  0 < den → 0 ≤ num →
  -den ≤ 20 * num - 2 * den * tenths num den < den.
Proof.
  intros Hden Hnum. unfold tenths.
  pose proof (Z.mul_div_le (20 * num + den) (2 * den) ltac:(lia)).
  pose proof (Z.mul_succ_div_gt (20 * num + den) (2 * den) ltac:(lia)).
  lia.
Qed.

Lemma toFixed1_fixed num den :
  num < 10 ^ 21 * den →
  toFixed1 numberToString num den = fixed1 (tenths num den).
Proof. intros Hlt. unfold toFixed1. by rewrite (proj2 (Z.ltb_lt _ _) Hlt). Qed.

(** X18.  From 1024 bytes on the notice prints the size to one decimal:
    in KB below 1 MiB and in MB from there, never less than [1.0], and
    never more than half a tenth of the unit away from the exact size.
    The KB figure does not roll over: the last 51 byte counts below 1 MiB
    print as [1024.0 KB].  The one decimal ends where [toFixed] leaves
    the fixed notation: from 1e21 MB on the notice prints [String(x)]
    of the quotient. *)
Theorem size_is_printed_to_a_tenth bytes :
  (1024 ≤ bytes < 1024 * 1024 →
   ∃ t, formatFileSize numberToString bytes = fixed1 t +:+ " KB"
     ∧ 10 ≤ t ≤ 10240
     ∧ -512 ≤ 10 * bytes - 1024 * t < 512
     ∧ (t = 10240 ↔ 1048525 ≤ bytes))
  ∧ (1024 * 1024 ≤ bytes < 10 ^ 21 * (1024 * 1024) →
     ∃ t, formatFileSize numberToString bytes = fixed1 t +:+ " MB"
       ∧ 10 ≤ t
       ∧ -524288 ≤ 10 * bytes - 1048576 * t < 524288)
  ∧ (10 ^ 21 * (1024 * 1024) ≤ bytes →
     formatFileSize numberToString bytes
     = numberToString bytes (1024 * 1024) +:+ " MB").
Proof.
  split; [|split].
  - intros [Hlo Hhi]. exists (tenths bytes 1024). unfold formatFileSize.
    rewrite (proj2 (Z.ltb_ge _ _) Hlo), (proj2 (Z.ltb_lt _ _) Hhi).
    rewrite toFixed1_fixed by lia.
    pose proof (tenths_bounds bytes 1024 ltac:(lia) ltac:(lia)).
    split; [done|]. lia.
  - intros [Hlo Hhi]. exists (tenths bytes (1024 * 1024)). unfold formatFileSize.
    rewrite (proj2 (Z.ltb_ge bytes 1024) ltac:(lia)), (proj2 (Z.ltb_ge _ _) Hlo).
    rewrite toFixed1_fixed by done.
    pose proof (tenths_bounds bytes (1024 * 1024) ltac:(lia) ltac:(lia)).
    split; [done|]. lia.
  - intros Hlo. unfold formatFileSize, toFixed1.
    rewrite (proj2 (Z.ltb_ge bytes 1024) ltac:(lia)).
    rewrite (proj2 (Z.ltb_ge bytes (1024 * 1024)) ltac:(lia)).
    by rewrite (proj2 (Z.ltb_ge _ _) Hlo).
Qed.

(** X19.  The two versions of the notice print every size but zero alike;
    for zero bytes one prints [0 B] and the other [Unknown size], as it
    does when the size is missing. *)
Theorem size_versions_agree bytes :
  (bytes ≠ 0 →
   FileMessageRelative.formatFileSize numberToString (Some bytes)
   = formatFileSize numberToString bytes)
  ∧ formatFileSize numberToString 0 = "0 B"
  ∧ FileMessageRelative.formatFileSize numberToString (Some 0) = "Unknown size"
  ∧ FileMessageRelative.formatFileSize numberToString None = "Unknown size".
Proof.
  split; [|done]. intros Hne. unfold FileMessageRelative.formatFileSize, formatFileSize.
  by destruct bytes.
Qed.

Context (Number : string → JsValue).

Lemma perform_plainNotice a p :
  Forall (plainNotice numberToString) (messages p) →
  Forall (plainNotice numberToString) (messages (perform Number a p)).
Proof.
  intros Hinv.
  assert (∀ now q, messages q = messages p →
            Forall (plainNotice numberToString)
              (messages (runEffect Number now q))) as Heff.
  { intros now q Hq. unfold runEffect.
    destruct (dataSourceEffect _ _ _) as [p'|] eqn:Heq; [|by rewrite Hq].
    apply dataSourceEffect_upload in Heq as [->|(_ & upload & -> & Hsize & Hrows)];
      [by rewrite Hq|].
    constructor; [|done]. intros u [= <-]. split; [|done].
    unfold shownSize. by rewrite Hsize. }
  destruct a as [[q| |m|d now|dsid cid now]|[data|data]]; simpl; try done.
  - apply Forall_app. split; [done|]. by repeat constructor.
  - by apply Heff.
  - by apply Heff.
  - destruct (handleSuccess_messages data p) as [->|(a & _ & ->)]; [done|].
    apply Forall_app. split; [done|]. by repeat constructor.
Qed.

(** X20.  Every file-upload notice the page ever creates carries the size
    0 and no row count, so the notice reads [0 B] whatever was uploaded:
    in any conversation that started empty, each notice prints [0 B]. *)
Theorem upload_notice_reads_zero_bytes actions p upload :
  messages p = [] →
  file_upload upload ∈ messages (performAll Number actions p) →
  shownSize numberToString upload = Some "0 B"
  ∧ upload !! "rowsProcessed" = None.
Proof.
  intros Hnil Hin.
  assert (Forall (plainNotice numberToString)
            (messages (performAll Number actions p))) as Hinv.
  { assert (Forall (plainNotice numberToString) (messages p)) as H0
      by (by rewrite Hnil).
    clear Hnil Hin. revert p H0.
    induction actions as [|a rest IH]; intros p H0; simpl; [done|].
    apply IH. by apply perform_plainNotice. }
  rewrite Forall_forall in Hinv. by apply (Hinv _ Hin).
Qed.

End UploadNotice.

Lemma size_is_printed_to_a_tenth_witness :
  (∃ t, FileMessage.formatFileSize sampleNumberToString 1048575
        = FileMessage.fixed1 t +:+ " KB" ∧ t = 10240)
  ∧ FileMessage.formatFileSize sampleNumberToString 5767168 = "5.5 MB".
Proof.
  destruct (size_is_printed_to_a_tenth sampleNumberToString 1048575) as [Hkb _].
  destruct (size_is_printed_to_a_tenth sampleNumberToString 5767168)
    as (_ & Hmb & _).
  split.
  - destruct Hkb as (t & Hs & _ & _ & Hroll); [lia|].
    exists t. split; [exact Hs|]. apply Hroll. lia.
  - destruct Hmb as (t & Hs & _ & Hnear); [lia|].
    assert (t = 55) as -> by lia. exact Hs.
Defined.

Lemma size_versions_agree_witness :
  FileMessageRelative.formatFileSize sampleNumberToString (Some 1280)
  = FileMessage.formatFileSize sampleNumberToString 1280.
Proof.
  destruct (size_versions_agree sampleNumberToString 1280) as [Hagree _].
  apply Hagree. discriminate.
Defined.

Lemma upload_notice_reads_zero_bytes_witness :
  let sets := JArr [JObj (<["id" := JNum 7]> (<["name" := JStr "sales.csv"]>
                          {[ "type" := JStr "spreadsheet" ]}))] in
  let actions := [ByUser (DataSetsStored sets (JNum 1));
                  ByUser (Routed (Some "7") None (JNum 2))] in
  ∃ upload, messages (performAll sampleNumber actions samplePage) = [file_upload upload]
    ∧ FileMessage.shownSize sampleNumberToString upload = Some "0 B".
Proof.
  intros sets actions. eexists. split; [reflexivity|].
  eapply (upload_notice_reads_zero_bytes sampleNumberToString sampleNumber
            actions samplePage).
  - reflexivity.
  - apply list_elem_of_here.
Defined.

(** ** Relative times *)

Section RelativeTime.

Import FileMessageRelative.
Context (toLocaleDateString : Z → string).

(** X21.  The relative time of the other notice: [Just now] for anything
    younger than a minute, an instant in the future included; whole
    minutes from 1 to 59 up to the hour; whole hours from 1 to 23 up to
    the day (a single hour reads [1 hours ago]); the locale's date from
    one day on. *)
Theorem relative_time_ranges now date :
  (now - date < 60000 → formatTime toLocaleDateString now date = "Just now")
  ∧ (60000 ≤ now - date < 3600000 →
     formatTime toLocaleDateString now date
     = pretty ((now - date) / 60000) +:+ " min ago"
     ∧ 1 ≤ (now - date) / 60000 ≤ 59)
  ∧ (3600000 ≤ now - date < 86400000 →
     formatTime toLocaleDateString now date
     = pretty ((now - date) / 3600000) +:+ " hours ago"
     ∧ 1 ≤ (now - date) / 3600000 ≤ 23)
  ∧ (86400000 ≤ now - date →
     formatTime toLocaleDateString now date = toLocaleDateString date).
Proof.
  unfold formatTime. set (d := now - date).
  assert (∀ k, 0 < k → (d / 1000 <? k) = (d <? 1000 * k)) as Hlt.
  { intros k Hk. apply eq_iff_eq_true. rewrite !Z.ltb_lt.
    split; intros H.
    - pose proof (Z.mul_succ_div_gt d 1000 ltac:(lia)). nia.
    - apply Z.div_lt_upper_bound; lia. }
  rewrite (Hlt 60), (Hlt 3600), (Hlt 86400) by lia.
  change (1000 * 60) with 60000. change (1000 * 3600) with 3600000.
  change (1000 * 86400) with 86400000.
  assert (d / 1000 / 60 = d / 60000) as -> by (rewrite Z.div_div by lia; done).
  assert (d / 1000 / 3600 = d / 3600000) as -> by (rewrite Z.div_div by lia; done).
  repeat split.
  - intros H. by rewrite (proj2 (Z.ltb_lt _ _) H).
  - destruct H as [H1 H2].
    by rewrite (proj2 (Z.ltb_ge d 60000) H1), (proj2 (Z.ltb_lt _ _) H2).
  - apply Z.div_le_lower_bound; lia.
  - assert (d / 60000 < 60); [apply Z.div_lt_upper_bound|]; lia.
  - destruct H as [H1 H2].
    rewrite (proj2 (Z.ltb_ge d 60000) ltac:(lia)), (proj2 (Z.ltb_ge d 3600000) H1).
    by rewrite (proj2 (Z.ltb_lt _ _) H2).
  - apply Z.div_le_lower_bound; lia.
  - assert (d / 3600000 < 24); [apply Z.div_lt_upper_bound|]; lia.
  - intros H.
    rewrite (proj2 (Z.ltb_ge d 60000) ltac:(lia)), (proj2 (Z.ltb_ge d 3600000) ltac:(lia)).
    by rewrite (proj2 (Z.ltb_ge d 86400000) H).
Qed.

End RelativeTime.

Lemma relative_time_ranges_witness :
  FileMessageRelative.formatTime (λ _, "3/1/2026") 7199999 0 = "1 hours ago"
  ∧ FileMessageRelative.formatTime (λ _, "3/1/2026") 0 5000 = "Just now".
Proof.
  destruct (relative_time_ranges (λ _, "3/1/2026") 7199999 0) as (_ & _ & Hh & _).
  destruct (relative_time_ranges (λ _, "3/1/2026") 0 5000) as (Hnow & _).
  split; [apply Hh | apply Hnow]; lia.
Defined.

(** ** Highlighted step text *)

Section Highlight.

Import HighlightText.
Implicit Types (s cur pre post x : list N) (c : N).

Lemma lazyClose_bound s j : lazyClose s = Some j → (j + 2 ≤ length s)%nat.
Proof.
  revert j. induction s as [|c rest IH]; intros j; simpl; [done|].
  destruct rest as [|d rest']; [done|].
  destruct ((c =? STAR)%N && (d =? STAR)%N).
  - intros [= <-]. simpl. lia.
  - destruct (isLineTerminator c); [done|].
    destruct (lazyClose (d :: rest')) as [j'|] eqn:Hj; [|done].
    intros [= <-]. specialize (IH j' eq_refl). simpl in *. lia.
Qed.

Lemma matchBold_bound s n : matchBold s = Some n → (n ≤ length s)%nat.
Proof.
  destruct s as [|a [|b rest]]; simpl; try done.
  destruct (_ && _); [|done].
  destruct (lazyClose rest) as [j|] eqn:Hj; [|done].
  intros [= <-]. apply lazyClose_bound in Hj. simpl. lia.
Qed.

Lemma splitGo_concat matchAt skip cur s :
  (∀ s' n, matchAt s' = Some n → (n ≤ length s')%nat) →
  (skip ≤ length s)%nat →
  concat (splitGo matchAt true skip cur s) = cur ++ drop skip s.
Proof.
  intros Hbound. revert skip cur. induction s as [|c rest IH]; intros skip cur Hskip.
  - simpl in *. assert (skip = O) as -> by lia. simpl. by rewrite !(right_id_L [] (++)).
  - simpl. destruct skip as [|k].
    + destruct (matchAt (c :: rest)) as [[|len]|] eqn:Hm.
      * rewrite IH by lia. simpl. by rewrite <- (assoc_L (++)).
      * apply Hbound in Hm. simpl in Hm.
        cbn [concat app]. rewrite IH by lia. simpl.
        rewrite (take_drop len rest). done.
      * rewrite IH by lia. simpl. by rewrite <- (assoc_L (++)).
    + simpl in Hskip. rewrite IH by lia. done.
Qed.

Lemma splitGo_odd matchAt skip cur s :
  ∃ n, length (splitGo matchAt true skip cur s) = S (2 * n).
Proof.
  revert skip cur. induction s as [|c rest IH]; intros skip cur; simpl.
  - by exists O.
  - destruct skip as [|k]; [|apply IH].
    destruct (matchAt (c :: rest)) as [[|len]|]; try apply IH.
    destruct (IH len []) as [n Hn]. exists (S n). simpl. rewrite Hn. lia.
Qed.

(** X22.  Splitting a line at its bold phrases loses nothing: the parts,
    put back together, are the line, and there is always an odd number
    of them (text, phrase, text, ...). *)
Theorem split_bold_round_trip s :
  concat (splitBold s) = s ∧ ∃ n, length (splitBold s) = S (2 * n).
Proof.
  split.
  - unfold splitBold, split. rewrite splitGo_concat; [done| |lia].
    apply matchBold_bound.
  - apply splitGo_odd.
Qed.

Lemma splitGo_nonempty matchAt capture skip cur s :
  splitGo matchAt capture skip cur s ≠ [].
Proof.
  revert skip cur. induction s as [|c rest IH]; intros skip cur; simpl; [done|].
  destruct skip; [|apply IH]. by destruct (matchAt _) as [[|]|].
Qed.

Lemma joinWith_cons sep part parts :
  parts ≠ [] → joinWith sep (part :: parts) = part ++ sep ++ joinWith sep parts.
Proof. by destruct parts. Qed.

Lemma splitLines_go cur s :
  joinWith [LF] (splitGo matchNewline false O cur s) = cur ++ s
  ∧ (LF ∉ cur → Forall (λ l, LF ∉ l) (splitGo matchNewline false O cur s)).
Proof.
  revert cur. induction s as [|c rest IH]; intros cur.
  - simpl. split; [by rewrite (right_id_L [] (++))|]. by repeat constructor.
  - simpl. destruct (N.eqb_spec c LF) as [->|Hc].
    + destruct (IH []) as [Hjoin Hfree]. split.
      * rewrite joinWith_cons by apply splitGo_nonempty. by rewrite Hjoin.
      * intros Hcur. constructor; [done|]. apply Hfree. apply not_elem_of_nil.
    + destruct (IH (cur ++ [c])) as [Hjoin Hfree]. split.
      * by rewrite Hjoin, <- (assoc_L (++)).
      * intros Hcur. apply Hfree. rewrite elem_of_app, list_elem_of_singleton.
        intros [?|?]; [done | by subst].
Qed.

(** X23.  Splitting a paragraph into lines and joining the lines with
    line feeds gives the paragraph back, and no line holds a line feed. *)
Theorem split_lines_round_trip s :
  joinWith [LF] (splitLines s) = s ∧ Forall (λ l, LF ∉ l) (splitLines s).
Proof.
  destruct (splitLines_go [] s) as [Hjoin Hfree].
  split; [done|]. apply Hfree, not_elem_of_nil.
Qed.

Lemma hasBreak_app_false cur c :
  hasBreak cur = false →
  (c = LF → last cur ≠ Some LF) →
  hasBreak (cur ++ [c]) = false.
Proof.
  induction cur as [|a rest IH]; intros Hcur Hlast; [done|].
  destruct rest as [|b rest'].
  - simpl. apply orb_false_iff. split; [|done].
    apply andb_false_iff.
    destruct (N.eqb_spec a LF) as [->|?]; [|by left]. right.
    destruct (N.eqb_spec c LF) as [->|?]; [|done]. by destruct Hlast.
  - simpl in Hcur. apply orb_false_iff in Hcur as [Hab Hrest].
    change ((a :: b :: rest') ++ [c]) with (a :: (b :: rest') ++ [c]).
    cbn [hasBreak app]. rewrite Hab. simpl.
    apply IH; [done|]. intros Hc. specialize (Hlast Hc).
    by rewrite last_cons_cons in Hlast.
Qed.

Lemma runLength_le (p : N → bool) s : (runLength p s ≤ length s)%nat.
Proof.
  induction s as [|c rest IH]; [done|]. cbn [runLength length].
  destruct (p c); lia.
Qed.

Lemma runLength_LF_head s :
  head (drop (runLength (N.eqb LF) s) s) ≠ Some LF.
Proof.
  induction s as [|c rest IH]; [done|].
  cbn [runLength]. destruct (N.eqb LF c) eqn:Hc.
  - exact IH.
  - cbn [drop head]. intros [= ->]. by rewrite N.eqb_refl in Hc.
Qed.

Lemma matchBreak_None_head a b rest :
  matchBreak (a :: b :: rest) = None → a = LF → b ≠ LF.
Proof.
  simpl. intros Hm -> ->. by rewrite N.eqb_refl in Hm.
Qed.

(** The pieces of the paragraph split hold no break.  While a break is
    being passed, what is left of it is line feeds and what follows it is
    none. *)
Lemma splitBreak_go skip cur s :
  hasBreak cur = false →
  match skip with
  | O => last cur = Some LF → head s ≠ Some LF
  | S k => cur = [] ∧ head (drop skip s) ≠ Some LF ∧ (skip ≤ length s)%nat
  end →
  Forall (λ piece, hasBreak piece = false) (splitGo matchBreak false skip cur s).
Proof.
  revert skip cur. induction s as [|c rest IH]; intros skip cur Hcur Hinv.
  - simpl. by repeat constructor.
  - cbn [splitGo]. destruct skip as [|k].
    + destruct (matchBreak (c :: rest)) as [[|len]|] eqn:Hm.
      * destruct rest as [|d rest']; [done|]. simpl in Hm.
        destruct (_ && _); done.
      * destruct rest as [|d rest']; [done|]. simpl in Hm.
        destruct ((c =? LF)%N && (d =? LF)%N) eqn:Hcd; [|done].
        injection Hm as <-. apply andb_true_iff in Hcd as [_ Hd].
        apply N.eqb_eq in Hd as ->.
        cbn [app]. constructor; [done|]. apply IH; [done|].
        split; [done|]. split.
        -- change (drop (S (runLength (N.eqb LF) rest')) (LF :: rest'))
             with (drop (runLength (N.eqb LF) rest') rest').
           apply runLength_LF_head.
        -- pose proof (runLength_le (N.eqb LF) rest'). cbn [length]. lia.
      * apply IH.
        -- apply hasBreak_app_false; [done|].
           intros -> Hlast. by apply (Hinv Hlast).
        -- rewrite last_snoc. intros [= ->].
           destruct rest as [|d rest']; [done|]. simpl.
           intros [= ->]. simpl in Hm. done.
    + destruct Hinv as (-> & Hhead & Hlen). apply IH; [done|].
      destruct k as [|k'].
      * intros _. exact Hhead.
      * split; [done|]. split; [exact Hhead | simpl in Hlen; lia].
Qed.

Lemma splitBreak_whole cur s :
  hasBreak (cur ++ s) = false →
  splitGo matchBreak false O cur s = [cur ++ s].
Proof.
  revert cur. induction s as [|c rest IH]; intros cur Hno.
  - simpl. by rewrite (right_id_L [] (++)).
  - cbn [splitGo].
    assert (matchBreak (c :: rest) = None) as ->.
    { destruct rest as [|d rest']; [done|]. simpl.
      destruct ((c =? LF)%N && (d =? LF)%N) eqn:Hcd; [|done]. exfalso.
      clear IH. induction cur as [|a cur' IHc].
      - simpl in Hno. by rewrite Hcd in Hno.
      - apply IHc. simpl in Hno. destruct (cur' ++ c :: d :: rest'); [done|].
        by apply orb_false_iff in Hno as [_ ?]. }
    rewrite IH; rewrite <- (assoc_L (++)); done.
Qed.

(** X24.  No paragraph holds two line feeds in a row, and a text without
    such a pair is one paragraph, the text itself. *)
Theorem paragraphs_hold_no_break s :
  Forall (λ paragraph, hasBreak paragraph = false) (splitParagraphs s)
  ∧ (hasBreak s = false → splitParagraphs s = [s]).
Proof.
  split.
  - apply splitBreak_go; done.
  - intros Hno. by apply (splitBreak_whole [] s).
Qed.

Lemma startsWithStars_inv part :
  startsWithStars part = true → ∃ t, part = STAR :: STAR :: t.
Proof.
  destruct part as [|a [|b t]]; simpl; try done.
  intros H. apply andb_true_iff in H as [Ha Hb].
  apply N.eqb_eq in Ha as ->. apply N.eqb_eq in Hb as ->. by exists t.
Qed.

Lemma unstarred_app s1 s2 : unstarred (s1 ++ s2) = unstarred s1 ++ unstarred s2.
Proof. apply List.filter_app. Qed.

Lemma renderPart_unstarred part :
  unstarred (spanText (renderPart part)) = unstarred part.
Proof.
  unfold renderPart. destruct (isMarked part) eqn:Hm; [|done].
  apply andb_true_iff in Hm as [Hs He]. simpl.
  apply startsWithStars_inv in He as [r Hr].
  assert (part = reverse r ++ [STAR; STAR]) as Hpart.
  { rewrite <- (reverse_involutive part), Hr.
    by rewrite !reverse_cons, <- (assoc_L (++)). }
  destruct (reverse r) as [|x [|y w]] eqn:Hrev; rewrite Hpart in Hs |- *.
  - done.
  - simpl in Hs. apply andb_true_iff in Hs as [Hx _].
    apply N.eqb_eq in Hx as ->. done.
  - simpl in Hs. apply andb_true_iff in Hs as [Hx Hy].
    apply N.eqb_eq in Hx as ->. apply N.eqb_eq in Hy as ->.
    unfold slice2. cbn [app drop].
    replace (length (STAR :: STAR :: w ++ [STAR; STAR]) - 4)%nat with (length w)
      by (cbn [length]; rewrite length_app; simpl; lia).
    rewrite drop_0, take_app_length.
    change (STAR :: STAR :: w ++ [STAR; STAR])
      with ([STAR; STAR] ++ w ++ [STAR; STAR]).
    rewrite !unstarred_app.
    assert (unstarred [STAR; STAR] = []) as -> by reflexivity.
    by rewrite (right_id_L [] (++)).
Qed.

Lemma spans_unstarred s : unstarred (concat (spanText <$> spans s)) = unstarred s.
Proof.
  unfold spans.
  assert (∀ parts, unstarred (concat (spanText <$> (renderPart <$> parts)))
                   = unstarred (concat parts)) as Hparts.
  { induction parts as [|part rest IH]; [done|].
    cbn [fmap list_fmap concat]. rewrite !unstarred_app, renderPart_unstarred.
    f_equal. apply IH. }
  rewrite Hparts. unfold splitBold, split.
  rewrite splitGo_concat; [done | apply matchBold_bound | lia].
Qed.

(** X25.  Rendering a line takes out asterisks and nothing else: apart
    from the bullet marker a [li] drops, every character of the line that
    is no asterisk is on screen, in order, with nothing added. *)
Theorem line_loses_only_stars line :
  unstarred (lineText (processLine line))
  = unstarred (if isBullet line then stripBullet line else line).
Proof.
  unfold processLine. destruct (isBullet line); simpl; apply spans_unstarred.
Qed.

Lemma bulletChar_not_space c : isBulletChar c = true → isSpace c = false.
Proof.
  unfold isBulletChar. intros H.
  apply orb_true_iff in H as [H|H]; [apply orb_true_iff in H as [H|H]|];
    apply N.eqb_eq in H; by subst c.
Qed.

Lemma dropWhile_spaces ws c t :
  Forall (λ w, isSpace w = true) ws → isSpace c = false →
  dropWhile isSpace (ws ++ c :: t) = c :: t.
Proof.
  intros Hws Hc. induction Hws as [|w ws' Hw _ IH]; cbn [app dropWhile].
  - by rewrite Hc.
  - by rewrite Hw.
Qed.

(** X26.  Two edges of the bullet test.  A marker with nothing but white
    space after it is no bullet item, indented or not, because the test
    is made on the trimmed line.  And an indented item is a bullet whose
    marker stays on screen, because the marker is stripped from the
    untrimmed line, where the pattern no longer finds it at the start. *)
Theorem bullet_needs_text_and_indent_keeps_marker :
  (∀ indent c ws,
     Forall (λ w, isSpace w = true) indent → isBulletChar c = true →
     Forall (λ w, isSpace w = true) ws →
     isBullet (indent ++ c :: ws) = false)
  ∧ (∀ w rest,
     isSpace w = true → isBullet (w :: rest) = true →
     processLine (w :: rest) = Li (spans (w :: rest))).
Proof.
  split.
  - intros indent c ws Hindent Hc Hws. unfold isBullet, trim.
    pose proof (bulletChar_not_space c Hc) as Hns.
    rewrite (dropWhile_spaces indent c ws Hindent Hns).
    rewrite reverse_cons, (dropWhile_spaces (reverse ws) c []).
    + apply bool_decide_eq_false_2. by intros [n Hn].
    + by apply Forall_reverse.
    + done.
  - intros w rest Hw Hb. unfold processLine. rewrite Hb.
    unfold stripBullet.
    assert (matchBullet (w :: rest) = None) as ->; [|done].
    destruct rest as [|w' rest']; [done|]. simpl.
    destruct (isBulletChar w) eqn:Hbc; [|done].
    by rewrite (bulletChar_not_space w Hbc) in Hw.
Qed.

Lemma splitGo_skip matchAt capture skip cur s :
  (skip ≤ length s)%nat →
  splitGo matchAt capture skip cur s = splitGo matchAt capture O cur (drop skip s).
Proof.
  revert skip. induction s as [|c rest IH]; intros skip Hskip.
  - simpl in Hskip. by assert (skip = O) as -> by lia.
  - destruct skip as [|k]; [done|]. cbn [splitGo drop]. apply IH.
    simpl in Hskip. lia.
Qed.

Lemma splitGo_match matchAt cur c rest len :
  matchAt (c :: rest) = Some (S len) →
  splitGo matchAt true O cur (c :: rest)
  = cur :: take (S len) (c :: rest) :: splitGo matchAt true len [] rest.
Proof. intros Hm. cbn [splitGo]. by rewrite Hm. Qed.

Lemma splitBold_plain_prefix pre cur s :
  Forall (λ c, notStar c = true) pre →
  splitGo matchBold true O cur (pre ++ s) = splitGo matchBold true O (cur ++ pre) s.
Proof.
  intros Hpre. revert cur. induction Hpre as [|c pre' Hc _ IH]; intros cur.
  - by rewrite (right_id_L [] (++)).
  - cbn [app splitGo].
    assert (matchBold (c :: pre' ++ s) = None) as ->.
    { unfold matchBold. destruct (pre' ++ s); [done|].
      unfold notStar in Hc. apply negb_true_iff in Hc. by rewrite Hc. }
    rewrite IH. by rewrite <- (assoc_L (++)).
Qed.

Lemma lazyClose_phrase x post :
  Forall (λ c, notStar c = true ∧ isLineTerminator c = false) x →
  lazyClose (x ++ STAR :: STAR :: post) = Some (length x).
Proof.
  induction 1 as [|c x' [Hc Hl] _ IH]; [done|].
  cbn [app lazyClose]. rewrite IH.
  destruct (x' ++ STAR :: STAR :: post) eqn:Hrest.
  { by destruct x'. }
  unfold notStar in Hc. apply negb_true_iff in Hc. rewrite Hc, Hl. done.
Qed.

Lemma renderPart_plain pre :
  Forall (λ c, notStar c = true) pre → renderPart pre = Plain pre.
Proof.
  intros Hpre. unfold renderPart, isMarked.
  assert (startsWithStars pre = false) as ->; [|done].
  destruct Hpre as [|c pre' Hc _]; [done|]. destruct pre'; [done|]. simpl.
  unfold notStar in Hc. apply negb_true_iff in Hc. by rewrite Hc.
Qed.

Lemma renderPart_phrase x :
  renderPart ([STAR; STAR] ++ x ++ [STAR; STAR]) = Bold x.
Proof.
  unfold renderPart, isMarked.
  assert (startsWithStars (reverse ([STAR; STAR] ++ x ++ [STAR; STAR])) = true) as ->.
  { by rewrite !reverse_app. }
  cbn [app startsWithStars]. rewrite !N.eqb_refl. cbn [andb].
  unfold slice2. cbn [drop length]. rewrite drop_0.
  replace (S (S (length (x ++ [STAR; STAR]))) - 4)%nat with (length x)
    by (rewrite length_app; simpl; lia).
  by rewrite take_app_length.
Qed.

(** X27.  A phrase between two pairs of asterisks, itself free of
    asterisks and line terminators and preceded by text free of
    asterisks, comes out bold, without its markers, between the text
    before it and the rendering of what follows. *)
Theorem bold_phrase_is_highlighted pre x post :
  Forall (λ c, notStar c = true) pre →
  Forall (λ c, notStar c = true ∧ isLineTerminator c = false) x →
  spans (pre ++ [STAR; STAR] ++ x ++ [STAR; STAR] ++ post)
  = Plain pre :: Bold x :: spans post.
Proof.
  intros Hpre Hx. unfold spans, splitBold, split.
  rewrite splitBold_plain_prefix by done. cbn [app].
  assert (matchBold (STAR :: STAR :: x ++ STAR :: STAR :: post)
          = Some (S (3 + length x))) as Hmatch.
  { unfold matchBold. rewrite !N.eqb_refl. cbn [andb].
    by rewrite lazyClose_phrase. }
  rewrite (splitGo_match _ _ _ _ _ Hmatch).
  rewrite splitGo_skip by (cbn [length]; rewrite length_app; simpl; lia).
  assert (drop (3 + length x) (STAR :: x ++ STAR :: STAR :: post) = post) as ->.
  { cbn [Nat.add drop].
    change (x ++ STAR :: STAR :: post) with (x ++ [STAR; STAR] ++ post).
    rewrite (assoc_L (++)).
    replace (S (S (length x))) with (length (x ++ [STAR; STAR]))
      by (rewrite length_app; simpl; lia).
    by rewrite drop_app_length. }
  assert (take (S (3 + length x)) (STAR :: STAR :: x ++ STAR :: STAR :: post)
          = [STAR; STAR] ++ x ++ [STAR; STAR]) as ->.
  { cbn [Nat.add take app]. do 2 f_equal.
    change (x ++ STAR :: STAR :: post) with (x ++ [STAR; STAR] ++ post).
    rewrite (assoc_L (++)).
    replace (S (S (length x))) with (length (x ++ [STAR; STAR]))
      by (rewrite length_app; simpl; lia).
    by rewrite take_app_length. }
  cbn [fmap list_fmap].
  by rewrite renderPart_plain, renderPart_phrase.
Qed.

End Highlight.

(** An empty line inside a paragraph is kept as an empty line. *)
Example splitLines_keeps_empty_lines :
  HighlightText.splitLines [97; 10; 10; 98]%N = [[97]; []; [98]]%N.
Proof. reflexivity. Qed.

Lemma paragraphs_hold_no_break_witness :
  HighlightText.splitParagraphs [97; 10; 98]%N = [[97; 10; 98]%N].
Proof.
  destruct (paragraphs_hold_no_break [97; 10; 98]%N) as [_ Hwhole].
  apply Hwhole. reflexivity.
Defined.

Lemma bullet_needs_text_and_indent_keeps_marker_witness :
  HighlightText.isBullet [32; 45; 32]%N = false
  ∧ HighlightText.processLine [32; 45; 32; 97]%N
    = HighlightText.Li (HighlightText.spans [32; 45; 32; 97]%N).
Proof.
  destruct bullet_needs_text_and_indent_keeps_marker as [Hempty Hindent].
  split.
  - apply (Hempty [32%N] 45%N [32%N]); [by repeat constructor | reflexivity
                                         | by repeat constructor].
  - apply (Hindent 32%N [45; 32; 97]%N); reflexivity.
Defined.

Lemma bold_phrase_is_highlighted_witness :
  HighlightText.spans
    ([97; 32] ++ [HighlightText.STAR; HighlightText.STAR] ++ [98]
     ++ [HighlightText.STAR; HighlightText.STAR] ++ [32; 99])%N
  = [HighlightText.Plain [97; 32]%N; HighlightText.Bold [98]%N]
    ++ HighlightText.spans [32; 99]%N.
Proof.
  apply (bold_phrase_is_highlighted [97; 32]%N [98]%N [32; 99]%N);
    by repeat constructor.
Defined.
